(** * PDF outline extractor: a shallow embedding of [pdf_extractor.py]

    The development follows the class [PDFOutlineExtractor]: the heading
    patterns, the font-size threshold estimator, the pattern gate, the
    heading classifier, the title selector and the outline assembler.

    Modelling conventions.
    - Text is a [string] read as a sequence of ASCII code points; the
      character classes ([str.isspace], [\d], [str.isupper], ...) are the
      restrictions of Python's to that range.
    - A font size is a finite float; the code only compares sizes, so a
      size is modelled by the rational it denotes ([Q], compared with
      [Qle_bool] and [Qeq_bool]).
    - Page numbers are Python integers ([Z]).
    - A Python exception is a value [Raise e] of the [result] type.
    - The attribute [self.font_thresholds] is the one piece of mutable
      state; functions that read or write it take and return the
      [extractor] record. *)

From Stdlib Require Import Ascii String QArith Qminmax.
From Stdlib Require Import Lqa.
From Stdlib Require Import Sorting.Sorted.
From stdpp Require Import base list strings gmap.

Local Open Scope string_scope.
Local Open Scope Z_scope.
Local Open Scope list_scope.

(** ** Characters *)

Module Char.

Definition code (c : ascii) : N := N_of_ascii c.

Definition in_range (lo hi : N) (c : ascii) : bool :=
  ((lo <=? code c) && (code c <=? hi))%N.

(** [str.isspace] on the ASCII range: TAB, LF, VT, FF, CR, the four
    separators FS, GS, RS, US, and the space. *)
Definition is_space (c : ascii) : bool :=
  in_range 9 13 c || in_range 28 31 c || (code c =? 32)%N.

(** [\d] on the ASCII range: 0-9.  Python's class also holds the decimal
    digits of other scripts. *)
Definition is_digit (c : ascii) : bool := in_range 48 57 c.

(** [[A-Z]], also [c.isupper()] for an ASCII character.  On other
    characters [isupper] follows the Unicode tables; a statement that
    depends on which characters are uppercase letters or digits is made for
    ASCII text only. *)
Definition is_upper (c : ascii) : bool := in_range 65 90 c.

(** [[a-z]], also [c.islower()] for an ASCII character. *)
Definition is_lower (c : ascii) : bool := in_range 97 122 c.

Definition eqb (a : ascii) (c : ascii) : bool := (code a =? code c)%N.

Definition newline : ascii := ascii_of_N 10.

End Char.

(** ** String methods used by the extractor *)

Module Str.

Definition len (s : string) : Z := Z.of_nat (String.length s).

Definition is_empty (s : string) : bool :=
  match s with EmptyString => true | String _ _ => false end.

(** [s.lstrip()] *)
Fixpoint lstrip (s : string) : string :=
  match s with
  | EmptyString => EmptyString
  | String c s' => if Char.is_space c then lstrip s' else s
  end.

(** [s.rstrip()] *)
Fixpoint rstrip (s : string) : string :=
  match s with
  | EmptyString => EmptyString
  | String c s' =>
      let r := rstrip s' in
      if Char.is_space c && is_empty r then EmptyString else String c r
  end.

(** [s.strip()] *)
Definition strip (s : string) : string := rstrip (lstrip s).

(** [s.split()]: the maximal runs of non-whitespace characters. *)
Fixpoint split (s : string) : list string :=
  match s with
  | EmptyString => []
  | String c s' =>
      if Char.is_space c then split s'
      else match s' with
           | EmptyString => [String c EmptyString]
           | String c' _ =>
               if Char.is_space c' then String c EmptyString :: split s'
               else match split s' with
                    | w :: ws => String c w :: ws
                    | [] => [String c EmptyString]
                    end
           end
  end.

Fixpoint existsb (p : ascii -> bool) (s : string) : bool :=
  match s with
  | EmptyString => false
  | String c s' => p c || existsb p s'
  end.

Fixpoint forallb (p : ascii -> bool) (s : string) : bool :=
  match s with
  | EmptyString => true
  | String c s' => p c && forallb p s'
  end.

(** [s.isupper()]: at least one cased character and no lowercase one. *)
Definition isupper (s : string) : bool :=
  existsb Char.is_upper s && negb (existsb Char.is_lower s).

(** [s.startswith(p)] *)
Fixpoint startswith (p s : string) : bool :=
  match p, s with
  | EmptyString, _ => true
  | String a p', String b s' => Char.eqb a b && startswith p' s'
  | String _ _, EmptyString => false
  end.

(** [re.sub(r'\s+', ' ', s)]: every maximal run of whitespace becomes one
    space.  A whitespace character followed by another one is dropped, the
    last one of a run is replaced. *)
Fixpoint collapse_ws (s : string) : string :=
  match s with
  | EmptyString => EmptyString
  | String c s' =>
      if Char.is_space c then
        match s' with
        | String c' _ =>
            if Char.is_space c' then collapse_ws s'
            else String " " (collapse_ws s')
        | EmptyString => String " " EmptyString
        end
      else String c (collapse_ws s')
  end.

Fixpoint drop_while (p : ascii -> bool) (s : string) : string :=
  match s with
  | EmptyString => EmptyString
  | String c s' => if p c then drop_while p s' else s
  end.

(** [re.sub(r'^\d+\.?\s*', '', s)]: the pattern is anchored at the start,
    so at most one match is replaced.  Every quantifier is greedy and what
    follows it may match nothing, so the match is: all leading digits (at
    least one), then one dot if there is one, then all whitespace. *)
Definition strip_leading_number (s : string) : string :=
  match s with
  | EmptyString => EmptyString
  | String c _ =>
      if Char.is_digit c then
        let s1 := drop_while Char.is_digit s in
        let s2 := match s1 with
                  | String d s1' => if Char.eqb "." d then s1' else s1
                  | EmptyString => s1
                  end in
        drop_while Char.is_space s2
      else s
  end.

End Str.

(** ** Regular expressions

    The fragment of Python's [re] syntax used by the extractor, and
    [re.match] as a yes/no question.  None of the patterns has a
    back-reference or a look-around, so whether the backtracking matcher
    finds a match does not depend on greedy versus lazy quantifiers: a lazy
    [*?] is the same [Star]. *)

Module Re.

Inductive regex : Type :=
| Empty                       (* matches nothing *)
| Eps                         (* matches the empty string *)
| Bol                         (* ^ (no MULTILINE flag) *)
| Eol                         (* $ (no MULTILINE flag) *)
| Cls (p : ascii -> bool)     (* one character of a class *)
| Cat (r1 r2 : regex)
| Alt (r1 r2 : regex)
| Star (r : regex).

Definition Plus (r : regex) : regex := Cat r (Star r).
Definition Opt (r : regex) : regex := Alt r Eps.
Definition Chr (a : ascii) : regex := Cls (Char.eqb a).

Fixpoint Lit (s : string) : regex :=
  match s with
  | EmptyString => Eps
  | String c s' => Cat (Chr c) (Lit s')
  end.

Fixpoint seq (rs : list regex) : regex :=
  match rs with
  | [] => Eps
  | [r] => r
  | r :: rs' => Cat r (seq rs')
  end.

(** [$] holds at the end of the string and just before a newline that is
    the last character of the string. *)
Definition at_eol (rest : string) : bool :=
  match rest with
  | EmptyString => true
  | String c EmptyString => Char.eqb Char.newline c
  | _ => false
  end.

(** [nullable bol rest r]: [r] can match the empty string at a position
    that is the start of the string iff [bol], with [rest] still to read. *)
Fixpoint nullable (bol : bool) (rest : string) (r : regex) : bool :=
  match r with
  | Empty => false
  | Eps => true
  | Bol => bol
  | Eol => at_eol rest
  | Cls _ => false
  | Cat r1 r2 => nullable bol rest r1 && nullable bol rest r2
  | Alt r1 r2 => nullable bol rest r1 || nullable bol rest r2
  | Star _ => true
  end.

(** The derivative of [r] by the character [c] read at a position with
    remaining input [rest] (which starts with [c]). *)
Fixpoint deriv (bol : bool) (rest : string) (c : ascii) (r : regex) : regex :=
  match r with
  | Empty | Eps | Bol | Eol => Empty
  | Cls p => if p c then Eps else Empty
  | Cat r1 r2 =>
      if nullable bol rest r1
      then Alt (Cat (deriv bol rest c r1) r2) (deriv bol rest c r2)
      else Cat (deriv bol rest c r1) r2
  | Alt r1 r2 => Alt (deriv bol rest c r1) (deriv bol rest c r2)
  | Star r1 => Cat (deriv bol rest c r1) (Star r1)
  end.

Fixpoint match_from (bol : bool) (r : regex) (s : string) : bool :=
  nullable bol s r ||
  match s with
  | EmptyString => false
  | String c s' => match_from false (deriv bol s c r) s'
  end.

(** [re.match(r, s) is not None]: some prefix of [s] matches [r]. *)
Definition re_match (r : regex) (s : string) : bool := match_from true r s.

(** Character classes of the patterns. *)
Definition d : regex := Cls Char.is_digit.                       (* \d *)
Definition ws : regex := Cls Char.is_space.                      (* \s *)
Definition AZ : regex := Cls Char.is_upper.                      (* [A-Z] *)
Definition az : regex := Cls Char.is_lower.                      (* [a-z] *)
Definition dot : regex := Chr ".".                               (* \. *)
Definition not_end_punct : regex :=                              (* [^.!?] *)
  Cls (fun c => negb (Char.eqb "." c || Char.eqb "!" c || Char.eqb "?" c)).
Definition AZ_or_ws : regex :=                                   (* [A-Z\s] *)
  Cls (fun c => Char.is_upper c || Char.is_space c).
Definition colon_or_ws : regex :=                                (* [:\s] *)
  Cls (fun c => Char.eqb ":" c || Char.is_space c).

(** What a match is, stated without the derivatives:
    [matches bol r w rest] holds when [r] matches exactly the characters
    [w] at a position that is the start of the string iff [bol] and that is
    followed by [w +:+ rest].  An iteration of a star that consumes nothing
    does not change the position, so the iterations are taken non-empty. *)
Inductive matches : bool -> regex -> string -> string -> Prop :=
| M_eps b rest : matches b Eps "" rest
| M_bol rest : matches true Bol "" rest
| M_eol b rest : at_eol rest = true -> matches b Eol "" rest
| M_cls b p c rest : p c = true -> matches b (Cls p) (String c "") rest
| M_cat b r1 r2 w1 w2 rest :
    matches b r1 w1 (w2 +:+ rest) ->
    matches (b && Str.is_empty w1) r2 w2 rest ->
    matches b (Cat r1 r2) (w1 +:+ w2) rest
| M_alt_l b r1 r2 w rest : matches b r1 w rest -> matches b (Alt r1 r2) w rest
| M_alt_r b r1 r2 w rest : matches b r2 w rest -> matches b (Alt r1 r2) w rest
| M_star_nil b r rest : matches b (Star r) "" rest
| M_star_cons b r c w1 w2 rest :
    matches b r (String c w1) (w2 +:+ rest) ->
    matches false (Star r) w2 rest ->
    matches b (Star r) (String c w1 +:+ w2) rest.

End Re.

(** ** Python values and exceptions *)

Inductive exn : Type := IndexError | ValueError | KeyError.

Inductive result (A : Type) : Type :=
| Ok (a : A)
| Raise (e : exn).
Arguments Ok {A} a.
Arguments Raise {A} e.

#[global] Instance result_ret : MRet result := @Ok.
#[global] Instance result_bind : MBind result :=
  fun A B f m => match m with Ok a => f a | Raise e => Raise e end.

(** [l[i]] on a list *)
Definition getitem {A} (l : list A) (i : nat) : result A :=
  match l !! i with Some x => Ok x | None => Raise IndexError end.

(** [s[0]] on a string *)
Definition first_char (s : string) : result ascii :=
  match s with String c _ => Ok c | EmptyString => Raise IndexError end.

Definition Qlt_bool (x y : Q) : bool := negb (Qle_bool y x).

(** [max(l)]: the first of the largest elements; [ValueError] on an empty
    sequence. *)
Definition py_max (l : list Q) : result Q :=
  match l with
  | [] => Raise ValueError
  | x :: l' => Ok (fold_left (fun m y => if Qlt_bool m y then y else m) l' x)
  end.

(** [Counter(l).keys()]: the distinct elements in order of first
    occurrence. *)
Fixpoint counter_keys_from (seen l : list Q) : list Q :=
  match l with
  | [] => []
  | x :: l' =>
      if existsb (Qeq_bool x) seen then counter_keys_from seen l'
      else x :: counter_keys_from (x :: seen) l'
  end.

Definition counter_keys (l : list Q) : list Q := counter_keys_from [] l.

(** A stable sort, as [sorted] and [list.sort] are: [before x y] says that
    [x] must come strictly before [y].  An element is inserted in front of
    the sorted rest of the list and moves right only past elements that
    must come strictly before it, so equal elements keep their order. *)
Section StableSort.
Context {A : Type} (before : A -> A -> bool).

Fixpoint insert_sorted (x : A) (l : list A) : list A :=
  match l with
  | [] => [x]
  | y :: l' => if before y x then y :: insert_sorted x l' else x :: l
  end.

Fixpoint stable_sort (l : list A) : list A :=
  match l with
  | [] => []
  | x :: l' => insert_sorted x (stable_sort l')
  end.

(** [x] may stand in front of [y]: [y] need not come strictly first. *)
Definition in_order (x y : A) : Prop := before y x = false.
End StableSort.

(** ** Data model *)

Module Item.
(** One element of [formatted_text]. *)
Record t : Type := mk
  { text : string; font_size : Q; page : Z; bbox : Q * Q * Q * Q }.
End Item.

Inductive HeadingLevel : Type := Title | H1 | H2 | H3.

Definition level_name (l : HeadingLevel) : string :=
  match l with Title => "title" | H1 => "H1" | H2 => "H2" | H3 => "H3" end.

#[global] Instance HeadingLevel_eq_dec : EqDecision HeadingLevel.
Proof. solve_decision. Defined.

Module Entry.
(** One element of [outline]. *)
Record t : Type := mk { level : HeadingLevel; text : string; page : Z }.
End Entry.

Record FontThresholds : Type :=
  { th_title : Q; th_h1 : Q; th_h2 : Q; th_h3 : Q }.

Record OutlineResult : Type :=
  { title : string; outline : list Entry.t }.

(** The attributes of a [PDFOutlineExtractor].  [font_thresholds] is [None]
    for the empty dict of [__init__] and [Some] once
    [determine_font_thresholds] has filled the four keys. *)
Record extractor : Type :=
  { heading_patterns : list Re.regex;
    font_thresholds : option FontThresholds }.

(** ** [__init__] *)

Definition numbered_tail : list Re.regex :=          (* \s+[A-Z][^.!?]*? *)
  [Re.Plus Re.ws; Re.AZ; Re.Star Re.not_end_punct].

Definition init : extractor :=
  {| heading_patterns :=
       [ (* ^(\d+\.?\s+[A-Z][^.!?]*?)$ *)
         Re.seq ([Re.Bol; Re.Plus Re.d; Re.Opt Re.dot] ++ numbered_tail ++ [Re.Eol]);
         (* ^([A-Z][A-Z\s]{2,}[A-Z])$ *)
         Re.seq [Re.Bol; Re.AZ; Re.AZ_or_ws; Re.AZ_or_ws; Re.Star Re.AZ_or_ws;
                 Re.AZ; Re.Eol];
         (* ^([A-Z][a-z]+(?:\s+[A-Z][a-z]+)* ):?\s*$ -- written with a space
            after the inner star *)
         Re.seq [Re.Bol; Re.AZ; Re.Plus Re.az;
                 Re.Star (Re.seq [Re.Plus Re.ws; Re.AZ; Re.Plus Re.az]);
                 Re.Opt (Re.Chr ":"); Re.Star Re.ws; Re.Eol];
         (* ^(Chapter\s+\d+[:\s]+[^.!?]*?)$ *)
         Re.seq [Re.Bol; Re.Lit "Chapter"; Re.Plus Re.ws; Re.Plus Re.d;
                 Re.Plus Re.colon_or_ws; Re.Star Re.not_end_punct; Re.Eol];
         (* ^(Section\s+\d+[:\s]+[^.!?]*?)$ *)
         Re.seq [Re.Bol; Re.Lit "Section"; Re.Plus Re.ws; Re.Plus Re.d;
                 Re.Plus Re.colon_or_ws; Re.Star Re.not_end_punct; Re.Eol];
         (* ^(\d+\.\d+\.?\s+[A-Z][^.!?]*?)$ *)
         Re.seq ([Re.Bol; Re.Plus Re.d; Re.dot; Re.Plus Re.d; Re.Opt Re.dot]
                 ++ numbered_tail ++ [Re.Eol]);
         (* ^(\d+\.\d+\.\d+\.?\s+[A-Z][^.!?]*?)$ *)
         Re.seq ([Re.Bol; Re.Plus Re.d; Re.dot; Re.Plus Re.d; Re.dot;
                  Re.Plus Re.d; Re.Opt Re.dot] ++ numbered_tail ++ [Re.Eol]) ];
     font_thresholds := None |}.

(** ** [determine_font_thresholds] *)

(** The order of [sorted(..., reverse=True)]. *)
Definition larger_first (x y : Q) : bool := Qlt_bool y x.

Definition unique_sizes (formatted_text : list Item.t) : list Q :=
  stable_sort larger_first
    (counter_keys (map Item.font_size formatted_text)).

Definition determine_font_thresholds (formatted_text : list Item.t)
  : result FontThresholds :=
  let unique_sizes := unique_sizes formatted_text in
  if (length unique_sizes <? 2)%nat then
    m ← py_max unique_sizes;
    Ok {| th_title := m; th_h1 := m; th_h2 := m; th_h3 := m |}
  else
    title_threshold ← getitem unique_sizes 0;
    h1_threshold ← (if (1 <? length unique_sizes)%nat
                    then getitem unique_sizes 1 else getitem unique_sizes 0);
    h2_threshold ← (if (2 <? length unique_sizes)%nat
                    then getitem unique_sizes 2 else Ok h1_threshold);
    h3_threshold ← (if (3 <? length unique_sizes)%nat
                    then getitem unique_sizes 3 else Ok h2_threshold);
    Ok {| th_title := title_threshold; th_h1 := h1_threshold;
          th_h2 := h2_threshold; th_h3 := h3_threshold |}.

(** ** [is_heading_by_pattern] *)

Definition is_heading_by_pattern (self : extractor) (text : string) : bool :=
  let text := Str.strip text in
  if (Str.len text <? 3) || (200 <? Str.len text) then false
  else existsb (fun pattern => Re.re_match pattern text) (heading_patterns self).

(** ** [classify_heading_level] *)

(** The [if]/[elif] chain on the font size; [None] when no branch is
    taken. *)
Definition level_by_font_size (th : FontThresholds) (font_size : Q) (page : Z)
  : option HeadingLevel :=
  if Qle_bool (th_title th) font_size && (page =? 1) then Some Title
  else if Qle_bool (th_h1 th) font_size then Some H1
  else if Qle_bool (th_h2 th) font_size then Some H2
  else if Qle_bool (th_h3 th) font_size then Some H3
  else None.

(* ^\d+\.\d+\.\d+ *)
Definition numbered_3 : Re.regex :=
  Re.seq [Re.Bol; Re.Plus Re.d; Re.dot; Re.Plus Re.d; Re.dot; Re.Plus Re.d].

(* ^\d+\.\d+ *)
Definition numbered_2 : Re.regex :=
  Re.seq [Re.Bol; Re.Plus Re.d; Re.dot; Re.Plus Re.d].

(* ^\d+\. *)
Definition numbered_1 : Re.regex :=
  Re.seq [Re.Bol; Re.Plus Re.d; Re.dot].

(** The pattern-based classification that follows the chain. *)
Definition level_by_pattern (text : string) : option HeadingLevel :=
  if Re.re_match numbered_3 text then Some H3
  else if Re.re_match numbered_2 text then Some H2
  else if Re.re_match numbered_1 text then Some H1
  else if Str.isupper text && (length (Str.split text) <=? 5)%nat then Some H1
  else None.

(** The check that opens the function, on the stripped text: [Ok true]
    when it returns [None] at once.  [text[0]] is read only when the pattern
    gate has failed. *)
Definition gate_rejects (self : extractor) (text : string) : result bool :=
  if negb (is_heading_by_pattern self text) then
    c ← first_char text;
    Ok (negb (Char.is_upper c && (length (Str.split text) <=? 10)%nat))
  else Ok false.

Definition classify_heading_level
    (self : extractor) (text : string) (font_size : Q) (page : Z)
  : result (option HeadingLevel) :=
  let text := Str.strip text in
  rejected ← gate_rejects self text;
  if rejected : bool then Ok None
  else
    match font_thresholds self with
    | None => Raise KeyError
    | Some th =>
        match level_by_font_size th font_size page with
        | Some l => Ok (Some l)
        | None => Ok (level_by_pattern text)
        end
    end.

(** ** [extract_title] *)

Definition is_nil {A} (l : list A) : bool :=
  match l with [] => true | _ :: _ => false end.

(** The test of the fallback scan, on the stripped text. *)
Definition looks_like_title (text : string) : bool :=
  (5 <? Str.len text) && (Str.len text <? 100)
  && negb (Str.startswith "Page" text || Str.startswith "Chapter" text
           || Str.startswith "Section" text)
  && negb (Re.re_match (Re.seq [Re.Bol; Re.Plus Re.d; Re.Eol]) text).

Definition extract_title (formatted_text : list Item.t) : result string :=
  let first_page_text :=
    List.filter (fun item => Item.page item =? 1) formatted_text in
  if is_nil first_page_text then Ok "Untitled Document"
  else
    max_font_size ← py_max (map Item.font_size first_page_text);
    let title_candidates :=
      List.filter (fun item => Qeq_bool (Item.font_size item) max_font_size
                               && (3 <? Str.len (Item.text item)))
                  first_page_text in
    match title_candidates with
    | candidate :: _ =>
        let title := Item.text candidate in
        let title := Str.strip_leading_number title in
        Ok (Str.strip title)
    | [] =>
        match List.find (fun item => looks_like_title (Str.strip (Item.text item)))
                        (take 10 first_page_text) with
        | Some item => Ok (Str.strip (Item.text item))
        | None => Ok "Untitled Document"
        end
    end.

(** ** [extract_outline] *)

(** The body of the loop over [formatted_text], on its two accumulators
    [outline] and [seen_headings]. *)
Definition visit (self : extractor) (acc : list Entry.t * gset string)
    (item : Item.t) : result (list Entry.t * gset string) :=
  let '(outline, seen_headings) := acc in
  level ← classify_heading_level self (Item.text item)
            (Item.font_size item) (Item.page item);
  match level with
  | Some l =>
      if bool_decide (l ≠ Title) then
        let heading_text := Str.strip (Item.text item) in
        let heading_text := Str.collapse_ws heading_text in
        if bool_decide (heading_text ∉ seen_headings)
           && (2 <? Str.len heading_text)
        then Ok (outline ++ [Entry.mk l heading_text (Item.page item)],
                 {[heading_text]} ∪ seen_headings)
        else Ok acc
      else Ok acc
  | None => Ok acc
  end.

(** The loop: it stops at the first item on which the body raises. *)
Fixpoint collect_headings (self : extractor) (formatted_text : list Item.t)
    (acc : list Entry.t * gset string)
  : result (list Entry.t * gset string) :=
  match formatted_text with
  | [] => Ok acc
  | item :: rest =>
      acc' ← visit self acc item;
      collect_headings self rest acc'
  end.

Definition by_page (x y : Entry.t) : bool := Entry.page x <? Entry.page y.

(** [extract_outline], from the point where [extract_text_with_formatting]
    has returned [formatted_text].  The second component is the extractor
    after the call. *)
Definition extract_outline (self : extractor) (formatted_text : list Item.t)
  : result OutlineResult * extractor :=
  if is_nil formatted_text
  then (Ok {| title := "Empty Document"; outline := [] |}, self)
  else
    match determine_font_thresholds formatted_text with
    | Raise e => (Raise e, self)
    | Ok th =>
        let self := {| heading_patterns := heading_patterns self;
                       font_thresholds := Some th |} in
        (title ← extract_title formatted_text;
         '(outline, _) ← collect_headings self formatted_text ([], ∅);
         Ok {| title := title; outline := stable_sort by_page outline |},
         self)
    end.

(** ** [process_single_pdf]

    What is written to the output file: the result of a fresh extractor,
    or the error record when the extraction or the pipeline raises. *)
Definition error_result : OutlineResult :=
  {| title := "Error Processing Document"; outline := [] |}.

Definition process_single_pdf (extracted : result (list Item.t))
  : OutlineResult :=
  match extracted with
  | Raise _ => error_result
  | Ok formatted_text =>
      match fst (extract_outline init formatted_text) with
      | Ok r => r
      | Raise _ => error_result
      end
  end.

(** ** Vocabulary of the statements *)

(** The precondition on a line record: its text is not blank. *)
Definition has_text (item : Item.t) : Prop := Str.strip (Item.text item) <> "".

(** The text an item is entered under: stripped, whitespace collapsed. *)
Definition normalized (item : Item.t) : string :=
  Str.collapse_ws (Str.strip (Item.text item)).

(** [item] qualifies for the outline, and [e] is the entry built from it:
    the classifier gives it a level other than title and its normalized
    text is longer than 2 characters. *)
Definition emits (self : extractor) (item : Item.t) (e : Entry.t) : Prop :=
  classify_heading_level self (Item.text item) (Item.font_size item)
    (Item.page item) = Ok (Some (Entry.level e))
  /\ Entry.level e <> Title
  /\ Entry.text e = normalized item
  /\ Entry.page e = Item.page item
  /\ 2 < Str.len (Entry.text e).

(** [e] is built from the first qualifying item of [doc] with its text. *)
Definition first_source (self : extractor) (doc : list Item.t) (e : Entry.t)
  : Prop :=
  exists pre item post,
    doc = pre ++ item :: post
    /\ emits self item e
    /\ forall item' e', item' ∈ pre -> emits self item' e' ->
                        Entry.text e' <> Entry.text e.

(** [acc] lists, in document order, entries built from qualifying items. *)
Definition in_encounter_order (self : extractor) (doc : list Item.t)
    (acc : list Entry.t) : Prop :=
  exists sub, sub `sublist_of` doc /\ Forall2 (emits self) sub acc.

(** The ways the title selector arrives at its answer. *)
Definition title_source (doc : list Item.t) (title : string) : Prop :=
  title = "Untitled Document"
  \/ (exists item, item ∈ doc /\ Item.page item = 1
                   /\ 3 < Str.len (Item.text item)
                   /\ title = Str.strip (Str.strip_leading_number (Item.text item)))
  \/ (exists item, item ∈ doc /\ Item.page item = 1
                   /\ 5 < Str.len (Str.strip (Item.text item)) < 100
                   /\ title = Str.strip (Item.text item)).

(** The invariant of the loop of [extract_outline] once the items
    [processed] have been visited: [seen_headings] holds the texts of the
    entries, no text occurs twice, every entry comes from the first
    qualifying item with its text, the text of every qualifying item has
    been seen, and the entries are in document order. *)
Record loop_inv (self : extractor) (processed : list Item.t)
    (acc : list Entry.t * gset string) : Prop :=
  { inv_seen : forall t, t ∈ acc.2 <-> t ∈ map Entry.text acc.1;
    inv_nodup : NoDup (map Entry.text acc.1);
    inv_first : forall e, e ∈ acc.1 -> first_source self processed e;
    inv_known : forall item e, item ∈ processed -> emits self item e ->
                               Entry.text e ∈ acc.2;
    inv_order : in_encounter_order self processed acc.1 }.


(** ** Sample documents *)

Module Sample.

Definition line (text : string) (font_size : Q) (page : Z) : Item.t :=
  Item.mk text font_size page (0, 0, 0, 0)%Q.

(** ["A" * n] *)
Fixpoint repeat_A (n : nat) : string :=
  match n with O => EmptyString | S n' => String "A" (repeat_A n') end.

(** A numbered section and a subsection that is repeated on page 2. *)
Definition intro_doc : list Item.t :=
  [ line "1. Introduction" 18 1;
    line "1.1 Background" 14 1;
    line "1.1 Background" 14 2 ].

(** Five distinct font sizes; the numbered line is set in the smallest. *)
Definition five_sizes_doc : list Item.t :=
  [ line "Annual Report" 24 1;
    line "Overview" 20 1;
    line "Scope" 16 1;
    line "Details" 14 1;
    line "1. Methods" 10 2 ].

Definition numbered_small : Item.t := line "1. Methods" 10 2.

(** One word of 201 capital letters, on page 1 and again on page 2. *)
Definition long_line_doc : list Item.t :=
  [ line (repeat_A 201) 12 1; line (repeat_A 201) 12 2 ].

(** A page-1 line that is nothing but an enumeration prefix. *)
Definition numeric_title_doc : list Item.t := [ line "123." 12 1 ].

(** The title line of page 1 comes back as a running header on page 2. *)
Definition running_header_doc : list Item.t :=
  [ line "Annual Report" 24 1; line "Annual Report" 24 2 ].

End Sample.

(** ** [extract_text_with_formatting]

    The function walks the dictionaries that PyMuPDF returns for the pages
    of the document.  [Pdf] holds what it reads of them. *)

Module Pdf.

(** One element of [line["spans"]]: the keys "text" and "size". *)
Record span : Type := mk_span { text : string; size : Q }.

(** One element of [block["lines"]]: the keys "spans" and "bbox". *)
Record line : Type := mk_line { spans : list span; bbox : Q * Q * Q * Q }.

(** One element of [page.get_text("dict")["blocks"]]; [lines] is [None]
    for a block without the key "lines". *)
Record block : Type := mk_block { lines : option (list line) }.

(** The blocks of a page, and the pages of a document. *)
Definition page : Type := list block.
Definition document : Type := list page.

End Pdf.

Section Extraction.

(** [sum(font_sizes) / len(font_sizes)], computed on floats: the rounded
    mean is not determined by the rationals the sizes denote, so it is left
    open; what follows holds for every way of averaging. *)
Variable average : list Q -> Q.

(** The loop over the spans of a line, on [line_text] and [font_sizes]. *)
Fixpoint scan_spans (spans : list Pdf.span) (line_text : string)
    (font_sizes : list Q) : string * list Q :=
  match spans with
  | [] => (line_text, font_sizes)
  | span :: rest =>
      let text := Str.strip (Pdf.text span) in
      if negb (Str.is_empty text)
      then scan_spans rest (line_text +:+ text +:+ " ")
             (font_sizes ++ [Pdf.size span])
      else scan_spans rest line_text font_sizes
  end.

(** The body of the loop over the lines of a block: the records it
    appends to [formatted_text], none or one. *)
Definition scan_line (page_num : nat) (line : Pdf.line) : list Item.t :=
  let '(line_text, font_sizes) := scan_spans (Pdf.spans line) "" [] in
  let line_text := Str.strip line_text in
  if negb (Str.is_empty line_text) && negb (is_nil font_sizes) then
    let avg_font_size := average font_sizes in
    [ Item.mk line_text avg_font_size (Z.of_nat page_num + 1) (Pdf.bbox line) ]
  else [].

Definition scan_block (page_num : nat) (block : Pdf.block) : list Item.t :=
  match Pdf.lines block with
  | None => []
  | Some lines => flat_map (scan_line page_num) lines
  end.

Definition scan_page (page_num : nat) (page : Pdf.page) : list Item.t :=
  flat_map (scan_block page_num) page.

(** The loop over [range(len(doc))], from page index [page_num] on. *)
Fixpoint scan_pages (page_num : nat) (pages : list Pdf.page) : list Item.t :=
  match pages with
  | [] => []
  | page :: rest => scan_page page_num page ++ scan_pages (S page_num) rest
  end.

Definition extract_text_with_formatting (doc : Pdf.document) : list Item.t :=
  scan_pages 0 doc.

(** [extract_outline] as the source has it, from the opened document. *)
Definition extract_outline_of_pdf (self : extractor) (doc : Pdf.document)
  : result OutlineResult * extractor :=
  extract_outline self (extract_text_with_formatting doc).

End Extraction.

(** The exact mean, which the float computation approximates. *)
Definition exact_mean (l : list Q) : Q :=
  (fold_right Qplus 0 l / inject_Z (Z.of_nat (length l)))%Q.

(** ** More vocabulary *)

(** The line records are in page order. *)
Definition page_ordered (doc : list Item.t) : Prop :=
  StronglySorted (fun x y => Item.page x <= Item.page y) doc.

(** [" ".join(words)] *)
Fixpoint join_spaces (words : list string) : string :=
  match words with
  | [] => ""
  | [w] => w
  | w :: rest => w +:+ " " +:+ join_spaces rest
  end.

(** The two sizes of [Sample.intro_doc] in the other order, the larger one
    written as another fraction. *)
Definition reordered_sizes_doc : list Item.t :=
  [ Sample.line "z" 14 9; Sample.line "y" (36 # 2) 3 ].

Module SamplePdf.

(** Two pages: a title made of two spans and a blank span, an image
    block, a line of blank spans, and a heading on the second page. *)
Definition report : Pdf.document :=
  [ [ Pdf.mk_block (Some [ Pdf.mk_line [ Pdf.mk_span " Annual " 24;
                                         Pdf.mk_span "  " 10;
                                         Pdf.mk_span "Report" 20 ]
                             (0, 0, 100, 30)%Q ]);
      Pdf.mk_block None;
      Pdf.mk_block (Some [ Pdf.mk_line [ Pdf.mk_span "   " 12 ]
                             (0, 40, 100, 50)%Q ]) ];
    [ Pdf.mk_block (Some [ Pdf.mk_line [ Pdf.mk_span "1. Scope" 14 ]
                             (0, 0, 100, 20)%Q ]) ] ].

End SamplePdf.

(** The first, and the last, character of a string is whitespace. *)
Definition head_is_space (s : string) : bool :=
  match s with String c _ => Char.is_space c | EmptyString => false end.

Fixpoint last_is_space (s : string) : bool :=
  match s with
  | EmptyString => false
  | String c EmptyString => Char.is_space c
  | String _ s' => last_is_space s'
  end.

(** The stripped texts of the spans of a line that are not blank, and the
    sizes of those spans. *)
Definition span_words (spans : list Pdf.span) : list string :=
  List.filter (fun w => negb (Str.is_empty w))
    (map (fun span => Str.strip (Pdf.text span)) spans).

Definition span_sizes (spans : list Pdf.span) : list Q :=
  map Pdf.size
    (List.filter (fun span => negb (Str.is_empty (Str.strip (Pdf.text span))))
       spans).

(** Every word followed by a space, as the loop over the spans builds
    [line_text]. *)
Fixpoint spaced (words : list string) : string :=
  match words with
  | [] => ""
  | w :: rest => w +:+ " " +:+ spaced rest
  end.

(** A regular expression that matches nothing, by its shape. *)
Fixpoint is_dead (r : Re.regex) : bool :=
  match r with
  | Re.Empty => true
  | Re.Cat r1 r2 => is_dead r1 || is_dead r2
  | Re.Alt r1 r2 => is_dead r1 && is_dead r2
  | _ => false
  end.

(** Two documents use the same font sizes. *)
Definition same_sizes (doc1 doc2 : list Item.t) : Prop :=
  (forall item, item ∈ doc1 ->
     exists item', item' ∈ doc2 /\ (Item.font_size item == Item.font_size item')%Q)
  /\ (forall item, item ∈ doc2 ->
        exists item', item' ∈ doc1 /\ (Item.font_size item == Item.font_size item')%Q).

(** The depth of a classification: title first, no level last. *)
Definition level_rank (level : option HeadingLevel) : nat :=
  match level with
  | Some Title => 0
  | Some H1 => 1
  | Some H2 => 2
  | Some H3 => 3
  | None => 4
  end.

(** ** Vocabulary for positions and for plain text *)

(** The code point of a character is below 128. *)
Definition is_ascii (c : ascii) : bool := (Char.code c <? 128)%N.

(** Every character of the text is an ASCII character.  On such a text the
    character classes of [Char] are exactly Python's [str.isspace],
    [str.isupper], [str.islower] and the class [\d]. *)
Definition ascii_text (s : string) : Prop := Str.forallb is_ascii s = true.

(** [e] is built from the record at index [i] of [doc], and no record in
    front of it qualifies for the outline with the same text. *)
Definition source_at (self : extractor) (doc : list Item.t) (i : nat)
    (e : Entry.t) : Prop :=
  exists item,
    doc !! i = Some item
    /\ emits self item e
    /\ forall k item' e', (k < i)%nat -> doc !! k = Some item' ->
         emits self item' e' -> Entry.text e' <> Entry.text e.

(** [acc] lists its entries in the order of the records they are built
    from: the indices of the source records increase along [acc]. *)
Definition in_first_encounter_order (self : extractor) (doc : list Item.t)
    (acc : list Entry.t) : Prop :=
  exists indices : list nat,
    StronglySorted lt indices /\ Forall2 (source_at self doc) indices acc.

Module SampleOrder.

(** Headings met out of page order, two on each of the pages 2 and 3. *)
Definition shuffled_doc : list Item.t :=
  [ Sample.line "Report" 24 1; Sample.line "Beta" 14 3;
    Sample.line "Alpha" 14 2; Sample.line "Gamma" 14 3;
    Sample.line "Delta" 14 2 ].

(** Records in page order; the heading "Alpha Beta" occurs twice on page 2,
    in front of and behind "Gamma". *)
Definition repeated_doc : list Item.t :=
  [ Sample.line "Report" 24 1; Sample.line "Alpha Beta" 14 2;
    Sample.line "Gamma" 14 2; Sample.line "Alpha Beta" 14 2 ].

(** A line of two characters, a heading, and a word of 201 capital letters. *)
Definition lengths_doc : list Item.t :=
  [ Sample.line "Report" 24 1; Sample.line "Ab" 14 2;
    Sample.line "Scope Notes" 14 2; Sample.line (Sample.repeat_A 201) 14 3 ].

End SampleOrder.

(** * Properties *)

(** ** The matcher agrees with the definition of a match *)

Module ReFacts.
Import Re.

Lemma append_nil_l (s : string) : "" +:+ s = s.
Proof. reflexivity. Qed.

Lemma append_cons (c : ascii) (s t : string) :
  String c s +:+ t = String c (s +:+ t).
Proof. reflexivity. Qed.

Lemma append_assoc (a b c : string) : (a +:+ b) +:+ c = a +:+ (b +:+ c).
Proof.
  induction a as [|x a IH]; [done|]. rewrite !append_cons. by rewrite IH.
Qed.

Lemma append_empty_inv (a b : string) : a +:+ b = "" -> a = "" /\ b = "".
Proof. destruct a; [done|]. rewrite append_cons. discriminate. Qed.

Lemma nullable_matches b rest r :
  nullable b rest r = true -> matches b r "" rest.
Proof.
  induction r; simpl; intros H; try discriminate.
  - constructor.
  - subst b. constructor.
  - by constructor.
  - apply andb_prop in H as [H1 H2].
    change "" with ("" +:+ "") at 1. constructor; [by apply IHr1|].
    cbn [Str.is_empty]. rewrite andb_true_r. by apply IHr2.
  - apply orb_prop in H as [H|H]; [apply M_alt_l|apply M_alt_r]; auto.
  - constructor.
Qed.

Lemma matches_nullable b r w rest :
  matches b r w rest -> w = "" -> nullable b rest r = true.
Proof.
  induction 1 as [| | | |b r1 r2 w1 w2 rest _ IH1 _ IH2| | | |]; intros Hw;
    simpl; try done.
  - apply append_empty_inv in Hw as [-> ->].
    rewrite ?append_nil_l in IH1. cbn [Str.is_empty] in IH2.
    rewrite andb_true_r in IH2. rewrite IH1, IH2; done.
  - rewrite IHmatches; done.
  - rewrite IHmatches; [apply orb_true_r|done].
Qed.

Lemma deriv_matches r : forall b c w rest,
  matches false (deriv b (String c (w +:+ rest)) c r) w rest ->
  matches b r (String c w) rest.
Proof.
  induction r as [| | | |p|r1 IH1 r2 IH2|r1 IH1 r2 IH2|r1 IH1];
    intros b c w rest H; simpl in H; try (by inversion H).
  - destruct (p c) eqn:Hp; inversion H; subst. by constructor.
  - assert (forall w, matches false (Cat (deriv b (String c (w +:+ rest)) c r1) r2) w rest ->
                      matches b (Cat r1 r2) (String c w) rest) as Hleft.
    { clear H w. intros w H. inversion H as [| | | |? ? ? w1 w2 ? Ha Hb| | | |]; subst.
      rewrite append_assoc in Ha. apply IH1 in Ha.
      change (String c (w1 +:+ w2)) with (String c w1 +:+ w2).
      constructor; [done|]. cbn [Str.is_empty]. by rewrite andb_false_r. }
    destruct (nullable b (String c (w +:+ rest)) r1) eqn:Hn; [|by apply Hleft].
    inversion H; subst; [by apply Hleft|].
    change (String c w) with ("" +:+ String c w).
    constructor; [by apply nullable_matches|].
    cbn [Str.is_empty]. rewrite andb_true_r. by apply IH2.
  - inversion H; subst; [apply M_alt_l|apply M_alt_r]; auto.
  - inversion H as [| | | |? ? ? w1 w2 ? Ha Hb| | | |]; subst.
    rewrite append_assoc in Ha. apply IH1 in Ha.
    change (String c (w1 +:+ w2)) with (String c w1 +:+ w2).
    by constructor.
Qed.

Lemma matches_deriv b r cw rest :
  matches b r cw rest -> forall c w, cw = String c w ->
  matches false (deriv b (String c (w +:+ rest)) c r) w rest.
Proof.
  induction 1 as [| | |b p c' rest Hp|b r1 r2 w1 w2 rest H1 IH1 H2 IH2
                  |b r1 r2 w' rest H IH|b r1 r2 w' rest H IH|
                  |b r c' w1 w2 rest H1 IH1 H2 IH2];
    intros c w Hw; try discriminate.
  - injection Hw as -> <-. simpl. rewrite Hp. constructor.
  - simpl. destruct w1 as [|c1 w1].
    + rewrite ?append_nil_l in Hw. subst w2.
      cbn [Str.is_empty] in *. rewrite andb_true_r in *.
      rewrite ?append_nil_l, ?append_cons in H1.
      rewrite (matches_nullable _ _ _ _ H1 eq_refl).
      apply M_alt_r. by apply IH2.
    + rewrite ?append_cons in Hw. injection Hw as -> <-.
      cbn [Str.is_empty] in *. rewrite andb_false_r in *.
      specialize (IH1 c w1 eq_refl). rewrite <- append_assoc in IH1.
      assert (matches false (Cat (deriv b (String c ((w1 +:+ w2) +:+ rest)) c r1) r2)
                      (w1 +:+ w2) rest) as Hcat by by constructor.
      destruct (nullable b _ r1); [by apply M_alt_l|done].
  - simpl. apply M_alt_l. by apply IH.
  - simpl. apply M_alt_r. by apply IH.
  - rewrite ?append_cons in Hw. injection Hw as -> <-. simpl.
    specialize (IH1 c w1 eq_refl). rewrite <- append_assoc in IH1.
    by constructor.
Qed.

Lemma match_from_spec s : forall b r,
  match_from b r s = true <->
  exists w rest, s = w +:+ rest /\ matches b r w rest.
Proof.
  induction s as [|c s IH]; intros b r; simpl.
  - rewrite orb_false_r. split.
    + intros H. exists "", "". split; [done|by apply nullable_matches].
    + intros (w & rest & Hs & H). symmetry in Hs.
      apply append_empty_inv in Hs as [-> ->].
      by eapply matches_nullable.
  - split.
    + intros [H|H]%orb_prop.
      * exists "", (String c s). split; [done|by apply nullable_matches].
      * apply IH in H as (w & rest & -> & H).
        exists (String c w), rest. split; [done|]. by apply deriv_matches.
    + intros (w & rest & Hs & H). destruct w as [|c' w].
      * rewrite ?append_nil_l in Hs. subst rest.
        by rewrite (matches_nullable _ _ _ _ H eq_refl).
      * rewrite ?append_cons in Hs. injection Hs as <- ->.
        apply orb_true_iff. right.
        apply IH. exists w, rest. split; [done|].
        by eapply matches_deriv.
Qed.

(** [re.match] succeeds exactly when a prefix of the string matches. *)
Lemma re_match_spec r s :
  re_match r s = true <->
  exists w rest, s = w +:+ rest /\ matches true r w rest.
Proof. apply match_from_spec. Qed.

End ReFacts.

(** Some lines against the heading patterns and the string helpers. *)
Example heading_pattern_samples :
  map (is_heading_by_pattern init)
    [ "1. Introduction"; "1.1 Background"; "2.3.4 Deep Section";
      "ANNUAL REPORT"; "Annual Report:"; "Chapter 12: the end";
      "Section 3 - scope"; "1. Introduction?"; "lower case words"; "AB";
      "123." ]
  = [ true; true; true; true; true; true; true; false; false; false; false ].
Proof. vm_compute. reflexivity. Qed.

Example string_helper_samples :
  map Str.strip ["  a b  "; "   "; ""] = ["a b"; ""; ""]
  /\ map Str.split ["  a b  "; "   "; "ab  cd e"] = [["a"; "b"]; []; ["ab"; "cd"; "e"]]
  /\ map Str.collapse_ws ["a   b"; "a b  c"] = ["a b"; "a b c"]
  /\ map Str.strip_leading_number ["123."; "1. Intro"; "12 x"; "x 12"; "1.2 Foo"]
     = [""; "Intro"; "x"; "x 12"; "2 Foo"]
  /\ map level_by_pattern ["1.2.3 x"; "1.2x"; "1.x"; "12"; "ABC DEF"; "ABC d"]
     = [Some H3; Some H2; Some H1; None; Some H1; None].
Proof. repeat split; vm_compute; reflexivity. Qed.

(** ** The stable sort *)

Section StableSortFacts.
Context {A : Type} (before : A -> A -> bool).

Hypothesis before_asym : forall x y, before x y = true -> before y x = false.

Lemma insert_sorted_perm x l : insert_sorted before x l ≡ₚ x :: l.
Proof.
  induction l as [|y l IH]; simpl; [done|].
  destruct (before y x); [|done].
  rewrite IH. apply Permutation_swap.
Qed.

Lemma stable_sort_perm l : stable_sort before l ≡ₚ l.
Proof.
  induction l as [|x l IH]; simpl; [done|].
  by rewrite insert_sorted_perm, IH.
Qed.

Lemma insert_sorted_HdRel a x l :
  in_order before a x -> HdRel (in_order before) a l ->
  HdRel (in_order before) a (insert_sorted before x l).
Proof.
  intros Hax Hal. destruct l as [|y l]; simpl.
  - by constructor.
  - inversion_clear Hal. destruct (before y x); by constructor.
Qed.

Lemma insert_sorted_Sorted x l :
  Sorted (in_order before) l ->
  Sorted (in_order before) (insert_sorted before x l).
Proof.
  induction 1 as [|y l Hl IH Hy]; simpl.
  - repeat constructor.
  - destruct (before y x) eqn:Hyx.
    + constructor; [exact IH|].
      apply insert_sorted_HdRel; [|exact Hy].
      by apply before_asym.
    + constructor; [by constructor|]. by constructor.
Qed.

Lemma stable_sort_Sorted l : Sorted (in_order before) (stable_sort before l).
Proof.
  induction l as [|x l IH]; simpl; [constructor|].
  by apply insert_sorted_Sorted.
Qed.
End StableSortFacts.

(** Sorting on a key moves no element past another one with the same key. *)
Section StableByKey.
Context {A : Type} (key : A -> Z).

Let before (x y : A) : bool := key x <? key y.

Lemma insert_sorted_same_key k x l :
  List.filter (fun e => key e =? k) (insert_sorted before x l)
  = List.filter (fun e => key e =? k) (x :: l).
Proof.
  induction l as [|y l IH]; [done|].
  cbn [insert_sorted]. unfold before at 1.
  destruct (key y <? key x) eqn:Hyx; [|done].
  apply Z.ltb_lt in Hyx.
  cbn [List.filter] in *. rewrite IH.
  destruct (key y =? k) eqn:Hy; destruct (key x =? k) eqn:Hx; try done.
  apply Z.eqb_eq in Hy, Hx. lia.
Qed.

Lemma stable_sort_same_key k l :
  List.filter (fun e => key e =? k) (stable_sort before l)
  = List.filter (fun e => key e =? k) l.
Proof.
  induction l as [|x l IH]; [done|].
  cbn [stable_sort]. rewrite insert_sorted_same_key.
  cbn [List.filter]. by rewrite IH.
Qed.
End StableByKey.

(** ** Font sizes *)

Lemma Qlt_bool_false x y : Qlt_bool x y = false <-> (y <= x)%Q.
Proof.
  unfold Qlt_bool. rewrite negb_false_iff. apply Qle_bool_iff.
Qed.

Lemma Qlt_bool_true x y : Qlt_bool x y = true <-> (x < y)%Q.
Proof.
  unfold Qlt_bool. rewrite negb_true_iff. split.
  - intros H. apply Qnot_le_lt. intros Hle.
    apply Qle_bool_iff in Hle. congruence.
  - intros H. destruct (Qle_bool y x) eqn:E; [|done].
    apply Qle_bool_iff in E. exfalso. by apply (Qlt_not_le x y).
Qed.

Lemma larger_first_asym x y :
  larger_first x y = true -> larger_first y x = false.
Proof.
  unfold larger_first. rewrite Qlt_bool_true, Qlt_bool_false.
  apply Qlt_le_weak.
Qed.

Lemma counter_keys_from_covers seen l x :
  x ∈ l ->
  (exists s, s ∈ seen /\ (x == s)%Q)
  \/ (exists k, k ∈ counter_keys_from seen l /\ (x == k)%Q).
Proof.
  revert seen. induction l as [|y l IH]; intros seen Hx.
  - by apply elem_of_nil in Hx.
  - cbn [counter_keys_from].
    apply elem_of_cons in Hx as [->|Hx].
    + destruct (existsb (Qeq_bool y) seen) eqn:E.
      * left. apply existsb_exists in E as (s & Hs & Hys).
        exists s. split; [by apply list_elem_of_In|by apply Qeq_bool_iff].
      * right. exists y. split; [apply elem_of_cons; by left|reflexivity].
    + destruct (existsb (Qeq_bool y) seen) eqn:E.
      * apply IH; done.
      * destruct (IH (y :: seen) Hx) as [(s & Hs & Hxs)|(k & Hk & Hxk)].
        -- apply elem_of_cons in Hs as [->|Hs].
           ++ right. exists y. split; [apply elem_of_cons; by left|done].
           ++ left. by exists s.
        -- right. exists k. split; [apply elem_of_cons; by right|done].
Qed.

Lemma counter_keys_covers l x :
  x ∈ l -> exists k, k ∈ counter_keys l /\ (x == k)%Q.
Proof.
  intros Hx. destruct (counter_keys_from_covers [] l x Hx) as [(s & Hs & _)|H].
  - by apply elem_of_nil in Hs.
  - exact H.
Qed.

Lemma unique_sizes_Sorted doc :
  Sorted (fun x y => (y <= x)%Q) (unique_sizes doc).
Proof.
  unfold unique_sizes.
  eapply Sorted_ind with (P := Sorted (fun x y => (y <= x)%Q));
    [constructor| |apply (stable_sort_Sorted larger_first), larger_first_asym].
  intros a l _ IH Hd. constructor; [exact IH|].
  destruct Hd as [|b l Hab]; constructor.
  unfold in_order, larger_first in Hab. by apply Qlt_bool_false in Hab.
Qed.

Lemma unique_sizes_covers doc item :
  item ∈ doc ->
  exists k, k ∈ unique_sizes doc /\ (Item.font_size item == k)%Q.
Proof.
  intros Hitem.
  destruct (counter_keys_covers (map Item.font_size doc) (Item.font_size item))
    as (k & Hk & Hq).
  { apply list_elem_of_fmap. by exists item. }
  exists k. split; [|done].
  unfold unique_sizes. by rewrite stable_sort_perm.
Qed.

Lemma unique_sizes_nonempty doc : doc <> [] -> unique_sizes doc <> [].
Proof.
  destruct doc as [|item doc]; [done|]. intros _ Hnil.
  destruct (unique_sizes_covers (item :: doc) item) as (k & Hk & _).
  { apply elem_of_cons; by left. }
  rewrite Hnil in Hk. by apply elem_of_nil in Hk.
Qed.

(** In a list sorted from large to small, the last element is the least. *)
Lemma sorted_desc_last (l : list Q) (x m : Q) :
  Sorted (fun x y => (y <= x)%Q) l -> x ∈ l -> last l = Some m -> (m <= x)%Q.
Proof.
  intros Hs. revert x m. induction Hs as [|a l Hl IH Ha]; intros x m Hx Hm.
  - by apply elem_of_nil in Hx.
  - destruct l as [|b l].
    + apply list_elem_of_singleton in Hx as ->. simpl in Hm.
      injection Hm as ->. apply Qle_refl.
    + assert (last (b :: l) = Some m) as Hm' by exact Hm.
      apply elem_of_cons in Hx as [->|Hx].
      * inversion_clear Ha.
        apply Qle_trans with b; [|done].
        apply IH; [apply elem_of_cons; by left|done].
      * by apply IH.
Qed.

(** ** The threshold estimator *)

Lemma determine_font_thresholds_cases doc th :
  determine_font_thresholds doc = Ok th ->
  match unique_sizes doc with
  | [] => False
  | [a] => th = {| th_title := a; th_h1 := a; th_h2 := a; th_h3 := a |}
  | [a; b] => th = {| th_title := a; th_h1 := b; th_h2 := b; th_h3 := b |}
  | [a; b; c] => th = {| th_title := a; th_h1 := b; th_h2 := c; th_h3 := c |}
  | a :: b :: c :: d :: _ =>
      th = {| th_title := a; th_h1 := b; th_h2 := c; th_h3 := d |}
  end.
Proof.
  unfold determine_font_thresholds.
  destruct (unique_sizes doc) as [|a [|b [|c [|d l]]]]; cbn;
    intros H; by inversion H.
Qed.

Lemma determine_font_thresholds_ok doc :
  doc <> [] -> exists th, determine_font_thresholds doc = Ok th.
Proof.
  intros Hne. apply unique_sizes_nonempty in Hne.
  unfold determine_font_thresholds.
  destruct (unique_sizes doc) as [|a [|b [|c [|d l]]]]; cbn; [done|eauto..].
Qed.

(** C4: for every non-empty sequence of line records the estimator returns
    thresholds, and they satisfy title >= h1 >= h2 >= h3; this covers the
    documents with fewer than four distinct sizes. *)
Theorem thresholds_non_increasing (doc : list Item.t) :
  doc <> [] ->
  exists th, determine_font_thresholds doc = Ok th
    /\ (th_h1 th <= th_title th)%Q
    /\ (th_h2 th <= th_h1 th)%Q
    /\ (th_h3 th <= th_h2 th)%Q.
Proof.
  intros Hne. destruct (determine_font_thresholds_ok doc Hne) as [th Hth].
  exists th. split; [done|].
  apply determine_font_thresholds_cases in Hth.
  pose proof (unique_sizes_Sorted doc) as Hs.
  destruct (unique_sizes doc) as [|a [|b [|c [|d l]]]]; [done|subst th; cbn..].
  - repeat split; apply Qle_refl.
  - inversion_clear Hs as [|? ? _ Hab]. inversion_clear Hab.
    repeat split; [done|apply Qle_refl..].
  - inversion_clear Hs as [|? ? Hs' Hab]. inversion_clear Hab.
    inversion_clear Hs' as [|? ? _ Hbc]. inversion_clear Hbc.
    repeat split; [done..|apply Qle_refl].
  - inversion_clear Hs as [|? ? Hs' Hab]. inversion_clear Hab.
    inversion_clear Hs' as [|? ? Hs'' Hbc]. inversion_clear Hbc.
    inversion_clear Hs'' as [|? ? _ Hcd]. inversion_clear Hcd.
    by repeat split.
Qed.

Lemma thresholds_non_increasing_witness :
  exists th, determine_font_thresholds Sample.intro_doc = Ok th
    /\ (th_h1 th <= th_title th)%Q
    /\ (th_h2 th <= th_h1 th)%Q
    /\ (th_h3 th <= th_h2 th)%Q.
Proof. apply (thresholds_non_increasing Sample.intro_doc). discriminate. Defined.

(** ** The font-size rules of the classifier *)

Lemma level_by_font_size_h3 th size page :
  Qle_bool (th_h3 th) size = true ->
  is_Some (level_by_font_size th size page).
Proof.
  intros H. unfold level_by_font_size. rewrite H.
  repeat (match goal with |- context [if ?b then _ else _] => destruct b end);
    eauto.
Qed.

Lemma level_by_font_size_None th size page :
  level_by_font_size th size page = None -> (size < th_h3 th)%Q.
Proof.
  intros H. apply Qnot_le_lt. intros Hle. apply Qle_bool_iff in Hle.
  destruct (level_by_font_size_h3 th size page Hle) as [l Hl]. congruence.
Qed.

(** With at most four distinct sizes the h3 threshold is the smallest size
    of the document. *)
Lemma h3_is_smallest_size doc th :
  determine_font_thresholds doc = Ok th ->
  (length (unique_sizes doc) <= 4)%nat ->
  last (unique_sizes doc) = Some (th_h3 th).
Proof.
  intros Hth Hlen. apply determine_font_thresholds_cases in Hth.
  destruct (unique_sizes doc) as [|a [|b [|c [|d [|e l]]]]];
    [done|subst th; reflexivity..|simpl in Hlen; lia].
Qed.

Lemma classify_not_rejected self th text size page :
  font_thresholds self = Some th ->
  gate_rejects self (Str.strip text) = Ok false ->
  classify_heading_level self text size page
  = Ok (match level_by_font_size th size page with
        | Some l => Some l
        | None => level_by_pattern (Str.strip text)
        end).
Proof.
  intros Hth Hgate. unfold classify_heading_level.
  rewrite Hgate. cbn. rewrite Hth.
  by destruct (level_by_font_size th size page).
Qed.

(** C2 (as amended): in a document with at most four distinct font sizes
    every line is at least as large as the h3 threshold, so every line that
    the opening check does not reject gets its level from the font-size
    rules and the numeric-prefix / all-caps rules are never consulted.  They
    can be reached only in a document with five or more distinct sizes. *)
Theorem font_rules_decide_up_to_four_sizes
    (doc : list Item.t) (item : Item.t) (th : FontThresholds)
    (self : extractor) :
  item ∈ doc ->
  (length (unique_sizes doc) <= 4)%nat ->
  determine_font_thresholds doc = Ok th ->
  font_thresholds self = Some th ->
  gate_rejects self (Str.strip (Item.text item)) = Ok false ->
  exists l,
    level_by_font_size th (Item.font_size item) (Item.page item) = Some l
    /\ classify_heading_level self (Item.text item) (Item.font_size item)
         (Item.page item) = Ok (Some l).
Proof.
  intros Hin Hlen Hth Hself Hgate.
  destruct (unique_sizes_covers doc item Hin) as (k & Hk & Hq).
  pose proof (h3_is_smallest_size doc th Hth Hlen) as Hlast.
  pose proof (sorted_desc_last _ k _ (unique_sizes_Sorted doc) Hk Hlast) as Hle.
  assert (Qle_bool (th_h3 th) (Item.font_size item) = true) as Hh3.
  { apply Qle_bool_iff. by rewrite Hq. }
  destruct (level_by_font_size_h3 th _ (Item.page item) Hh3) as [l Hl].
  exists l. split; [done|].
  rewrite (classify_not_rejected self th) by done. by rewrite Hl.
Qed.

Lemma font_rules_decide_up_to_four_sizes_witness :
  exists l,
    level_by_font_size
      {| th_title := 18; th_h1 := 14; th_h2 := 14; th_h3 := 14 |} 14 1 = Some l
    /\ classify_heading_level (snd (extract_outline init Sample.intro_doc))
         "1.1 Background" 14 1 = Ok (Some l).
Proof.
  apply (font_rules_decide_up_to_four_sizes Sample.intro_doc
           (Sample.line "1.1 Background" 14 1)
           {| th_title := 18; th_h1 := 14; th_h2 := 14; th_h3 := 14 |}
           (snd (extract_outline init Sample.intro_doc))).
  - apply elem_of_cons; right. apply elem_of_cons; by left.
  - vm_compute. lia.
  - reflexivity.
  - reflexivity.
  - vm_compute. reflexivity.
Defined.

(** C2 (as stated) fails: [Sample.five_sizes_doc] has five distinct sizes,
    its line "1. Methods" passes the opening check, and no font-size rule
    assigns it a level. *)
Lemma fallback_reached_with_five_sizes :
  ~ (forall doc item th self,
       (4 <= length (unique_sizes doc))%nat ->
       item ∈ doc ->
       determine_font_thresholds doc = Ok th ->
       font_thresholds self = Some th ->
       gate_rejects self (Str.strip (Item.text item)) = Ok false ->
       is_Some (level_by_font_size th (Item.font_size item) (Item.page item))).
Proof.
  intros H.
  specialize (H Sample.five_sizes_doc Sample.numbered_small
                {| th_title := 24; th_h1 := 20; th_h2 := 16; th_h3 := 14 |}
                (snd (extract_outline init Sample.five_sizes_doc))).
  destruct H as [l Hl].
  - vm_compute. lia.
  - unfold Sample.five_sizes_doc. rewrite !elem_of_cons. tauto.
  - reflexivity.
  - reflexivity.
  - vm_compute. reflexivity.
  - vm_compute in Hl. discriminate.
Qed.

(** What the pipeline does with that document: the line is classified H1
    by its numeric prefix. *)
Example five_sizes_outline :
  fst (extract_outline init Sample.five_sizes_doc)
  = Ok {| title := "Annual Report";
          outline := [ Entry.mk H1 "Overview" 1; Entry.mk H2 "Scope" 1;
                       Entry.mk H3 "Details" 1; Entry.mk H1 "1. Methods" 2 ] |}.
Proof. vm_compute. reflexivity. Qed.

(** ** The three-record example *)

(** C1 (as stated) fails: the h1 threshold is not 18 and the surviving
    entry is not an H2. *)
Lemma intro_doc_not_as_stated :
  determine_font_thresholds Sample.intro_doc
    <> Ok {| th_title := 18; th_h1 := 18; th_h2 := 14; th_h3 := 14 |}
  /\ forall r, fst (extract_outline init Sample.intro_doc) = Ok r ->
               outline r <> [ Entry.mk H2 "1.1 Background" 1 ].
Proof.
  split.
  - vm_compute. discriminate.
  - intros r Hr. vm_compute in Hr. injection Hr as <-. cbn. discriminate.
Qed.

(** C1 (as amended): for the three records the thresholds are title=18,
    h1=14, h2=14, h3=14; "1. Introduction" is classified title and left
    out; the outline is the single entry H1 "1.1 Background" on page 1, the
    page-2 duplicate being dropped. *)
Theorem intro_doc_outline :
  determine_font_thresholds Sample.intro_doc
    = Ok {| th_title := 18; th_h1 := 14; th_h2 := 14; th_h3 := 14 |}
  /\ classify_heading_level
       (snd (extract_outline init Sample.intro_doc)) "1. Introduction" 18 1
     = Ok (Some Title)
  /\ fst (extract_outline init Sample.intro_doc)
     = Ok {| title := "Introduction";
             outline := [ Entry.mk H1 "1.1 Background" 1 ] |}.
Proof. repeat split; vm_compute; reflexivity. Qed.

(** ** The classifier never fails on a line record *)

Lemma is_heading_by_pattern_empty self : is_heading_by_pattern self "" = false.
Proof. reflexivity. Qed.

Lemma gate_rejects_nonempty self text :
  text <> "" -> exists b, gate_rejects self text = Ok b.
Proof.
  intros Hne. unfold gate_rejects.
  destruct (negb (is_heading_by_pattern self text)); [|eauto].
  destruct text as [|c text]; [done|]. cbn. eauto.
Qed.

(** C9: with the thresholds of the document in place, the classifier
    returns one of none, title, H1, H2, H3, without raising, for every text
    whose stripped form is not empty.  On a text whose stripped form is
    empty the pattern gate fails and the read of [text[0]] that follows it
    is out of range. *)
Theorem classify_heading_level_safe
    (self : extractor) (th : FontThresholds)
    (text : string) (font_size : Q) (page : Z) :
  font_thresholds self = Some th ->
  if Str.is_empty (Str.strip text)
  then is_heading_by_pattern self (Str.strip text) = false
       /\ classify_heading_level self text font_size page = Raise IndexError
  else exists level : option HeadingLevel,
         classify_heading_level self text font_size page = Ok level.
Proof.
  intros Hth. destruct (Str.strip text) as [|c t] eqn:Hs; cbn [Str.is_empty].
  - split; [done|]. unfold classify_heading_level. by rewrite Hs.
  - unfold classify_heading_level. rewrite Hs.
    destruct (gate_rejects_nonempty self (String c t)) as [b ->]; [done|].
    cbn. destruct b; [eauto|]. rewrite Hth.
    destruct (level_by_font_size th font_size page); eauto.
Qed.

Lemma classify_heading_level_safe_witness :
  exists level : option HeadingLevel,
    classify_heading_level (snd (extract_outline init Sample.intro_doc))
      "1.1 Background" 14 1 = Ok level.
Proof.
  exact (classify_heading_level_safe
           (snd (extract_outline init Sample.intro_doc))
           {| th_title := 18; th_h1 := 14; th_h2 := 14; th_h3 := 14 |}
           "1.1 Background" 14 1 eq_refl).
Defined.

(** Both branches occur: a text that passes the pattern gate and is
    classified, and a blank text. *)
Example classify_heading_level_cases :
  Str.strip "1.1 Background" <> ""
  /\ is_heading_by_pattern (snd (extract_outline init Sample.intro_doc))
       (Str.strip "1.1 Background") = true
  /\ classify_heading_level (snd (extract_outline init Sample.intro_doc))
       "1.1 Background" 14 1 = Ok (Some H1)
  /\ Str.strip "   " = ""
  /\ classify_heading_level (snd (extract_outline init Sample.intro_doc))
       "   " 14 1 = Raise IndexError.
Proof. repeat split; try (vm_compute; reflexivity). discriminate. Qed.

(** ** The empty document *)

(** C7: on zero line records the pipeline returns the record with title
    "Empty Document" and an empty outline as an ordinary result; the
    extractor is left as it was (no thresholds are computed), and
    [process_single_pdf] writes that record, not the error record. *)
Theorem empty_document (self : extractor) :
  extract_outline self [] =
    (Ok {| title := "Empty Document"; outline := [] |}, self)
  /\ process_single_pdf (Ok []) = {| title := "Empty Document"; outline := [] |}.
Proof. split; reflexivity. Qed.

(** ** Determinism *)

Lemma extract_outline_patterns self doc :
  heading_patterns (snd (extract_outline self doc)) = heading_patterns self.
Proof.
  unfold extract_outline. destruct (is_nil doc); [done|].
  by destruct (determine_font_thresholds doc).
Qed.

Lemma extract_outline_ignores_thresholds self self' doc :
  heading_patterns self = heading_patterns self' ->
  fst (extract_outline self doc) = fst (extract_outline self' doc).
Proof.
  intros Hp. unfold extract_outline. destruct (is_nil doc); [done|].
  destruct (determine_font_thresholds doc); [|done].
  cbn [fst]. by rewrite Hp.
Qed.

(** C8: the result of the pipeline is a function of the line records
    alone.  It does not depend on the thresholds an earlier call has left
    in the extractor, and a second call on the same extractor with the same
    records returns the same result. *)
Theorem extract_outline_deterministic
    (patterns : list Re.regex) (ft ft' : option FontThresholds)
    (doc : list Item.t) :
  let self := {| heading_patterns := patterns; font_thresholds := ft |} in
  let self' := {| heading_patterns := patterns; font_thresholds := ft' |} in
  fst (extract_outline self doc) = fst (extract_outline self' doc)
  /\ fst (extract_outline (snd (extract_outline self doc)) doc)
     = fst (extract_outline self doc).
Proof.
  intros self self'. split.
  - by apply extract_outline_ignores_thresholds.
  - apply extract_outline_ignores_thresholds, extract_outline_patterns.
Qed.

(** ** The title selector *)

Lemma py_max_dominated x l :
  Forall (fun y => (y <= x)%Q) l -> py_max (x :: l) = Ok x.
Proof.
  intros H. unfold py_max. f_equal.
  induction H as [|y l Hy _ IH]; [done|].
  cbn [fold_left]. apply Qlt_bool_false in Hy. by rewrite Hy.
Qed.

Lemma length_append s t :
  String.length (s +:+ t) = (String.length s + String.length t)%nat.
Proof. induction s as [|c s IH]; [done|]. simpl. by rewrite IH. Qed.

Lemma len_append s t : Str.len (s +:+ t) = Str.len s + Str.len t.
Proof. unfold Str.len. rewrite length_append. lia. Qed.

Lemma drop_while_digits_dot ds :
  Str.forallb Char.is_digit ds = true ->
  Str.drop_while Char.is_digit (ds +:+ ".") = ".".
Proof.
  induction ds as [|c ds IH]; [done|]. cbn [Str.forallb].
  intros [Hc Hds]%andb_prop. simpl. rewrite Hc. by apply IH.
Qed.

Lemma strip_leading_number_digits_dot ds :
  ds <> "" -> Str.forallb Char.is_digit ds = true ->
  Str.strip_leading_number (ds +:+ ".") = "".
Proof.
  intros Hne Hds. unfold Str.strip_leading_number.
  rewrite (drop_while_digits_dot ds Hds).
  destruct ds as [|c ds]; [done|].
  cbn [Str.forallb] in Hds. apply andb_prop in Hds as [Hc _].
  simpl. by rewrite Hc.
Qed.

(** C10: the title selector can return the empty string.  When the first
    page-1 record is a run of three or more digits followed by a dot, and
    no other page-1 record is larger, it is the first title candidate
    (more than 3 characters); removing the leading number leaves nothing,
    and the empty string is returned: there is no fall-through to the
    secondary scan or to "Untitled Document". *)
Theorem numeric_title_is_empty
    (digits : string) (size : Q) (bbox : Q * Q * Q * Q) (rest : list Item.t) :
  (3 <= String.length digits)%nat ->
  Str.forallb Char.is_digit digits = true ->
  Forall (fun item => Item.page item = 1 -> (Item.font_size item <= size)%Q) rest ->
  extract_title (Item.mk (digits +:+ ".") size 1 bbox :: rest) = Ok "".
Proof.
  intros Hlen Hdigits Hrest.
  unfold extract_title. cbn [List.filter Item.page Z.eqb Pos.eqb is_nil map Item.font_size].
  rewrite py_max_dominated.
  2:{ apply Forall_fmap, Forall_forall. intros item Hitem.
      apply list_elem_of_In, filter_In in Hitem as [Hitem Hp].
      rewrite Forall_forall in Hrest. cbn.
      apply Hrest; [by apply list_elem_of_In|by apply Z.eqb_eq]. }
  cbn -[Str.len Str.strip Str.strip_leading_number].
  rewrite Qeq_bool_refl.
  replace (3 <? Str.len (digits +:+ ".")) with true.
  2:{ symmetry. apply Z.ltb_lt. rewrite len_append. unfold Str.len. simpl. lia. }
  cbn [andb Item.text].
  rewrite strip_leading_number_digits_dot; [done| |done].
  intros ->. simpl in Hlen. lia.
Qed.

Lemma numeric_title_is_empty_witness :
  extract_title Sample.numeric_title_doc = Ok "".
Proof.
  apply (numeric_title_is_empty "123" 12 (0, 0, 0, 0)%Q []).
  - simpl. lia.
  - reflexivity.
  - constructor.
Defined.


(** The whole pipeline on that document. *)
Example numeric_title_result :
  fst (extract_outline init Sample.numeric_title_doc)
  = Ok {| title := ""; outline := [] |}.
Proof. vm_compute. reflexivity. Qed.

(** ** The loop of the assembler *)

Lemma first_source_snoc self processed item e :
  first_source self processed e -> first_source self (processed ++ [item]) e.
Proof.
  intros (pre & it & post & -> & Hemit & Hfirst).
  exists pre, it, (post ++ [item]). split; [|done].
  by rewrite <- app_assoc.
Qed.

Lemma visit_cases self acc item acc' :
  visit self acc item = Ok acc' ->
  (acc' = acc /\ (forall e, emits self item e -> Entry.text e ∈ acc.2))
  \/ (exists e, emits self item e /\ (Entry.text e ∉ acc.2)
                /\ acc' = (acc.1 ++ [e], {[Entry.text e]} ∪ acc.2)).
Proof.
  unfold visit. destruct acc as [outline seen].
  destruct (classify_heading_level _ _ _ _) as [level|] eqn:Hc; [|done].
  cbn. destruct level as [l|].
  2:{ intros [= <-]. left. split; [done|].
      intros e (He & _). congruence. }
  case_bool_decide as Hl.
  2:{ intros [= <-]. left. split; [done|].
      intros e (He & Hne & _). congruence. }
  destruct (bool_decide _ && _) eqn:Hcond.
  - apply andb_prop in Hcond as [Hfresh Hlen].
    apply bool_decide_eq_true in Hfresh. apply Z.ltb_lt in Hlen.
    intros [= <-]. right.
    exists (Entry.mk l (normalized item) (Item.page item)).
    repeat split; done.
  - intros [= <-]. left. split; [done|].
    intros e (_ & _ & Ht & _ & Hlen). cbn. rewrite Ht.
    apply andb_false_iff in Hcond as [Hfresh|Hshort].
    + apply bool_decide_eq_false in Hfresh. by apply dec_stable in Hfresh.
    + apply Z.ltb_ge in Hshort. rewrite Ht in Hlen. unfold normalized in Hlen. lia.
Qed.

Lemma visit_inv self processed acc item acc' :
  loop_inv self processed acc ->
  visit self acc item = Ok acc' ->
  loop_inv self (processed ++ [item]) acc'.
Proof.
  intros [Hseen Hnodup Hfirst Hknown (sub & Hsub & Hemits)] Hvisit.
  apply visit_cases in Hvisit as [[-> Hskip]|(e & He & Hfresh & ->)].
  - split; [done..| | |].
    + intros e He. by apply first_source_snoc, Hfirst.
    + intros it e [Hit| ->%list_elem_of_singleton]%elem_of_app; eauto.
    + exists sub. split; [by apply sublist_inserts_r|done].
  - cbn [fst snd] in *. split; cbn [fst snd].
    + intros t. rewrite map_app, elem_of_app, elem_of_union, Hseen.
      cbn. rewrite elem_of_singleton, list_elem_of_singleton. tauto.
    + rewrite map_app. apply NoDup_app. split; [done|]. split.
      * intros t Ht ->%list_elem_of_singleton. by apply Hfresh, Hseen.
      * apply NoDup_singleton.
    + intros e' [He'| ->%list_elem_of_singleton]%elem_of_app.
      * by apply first_source_snoc, Hfirst.
      * exists processed, item, []. split; [done|]. split; [done|].
        intros it e' Hit He' Heq. apply Hfresh. rewrite <- Heq. eauto.
    + intros it e' [Hit| ->%list_elem_of_singleton]%elem_of_app He';
        apply elem_of_union.
      * right. eauto.
      * left. apply elem_of_singleton.
        destruct He as (_ & _ & -> & _), He' as (_ & _ & -> & _). done.
    + exists (sub ++ [item]). split.
      * by apply sublist_app.
      * apply Forall2_app; [done|]. constructor; [done|constructor].
Qed.

Lemma collect_headings_inv self rest : forall processed acc acc',
  loop_inv self processed acc ->
  collect_headings self rest acc = Ok acc' ->
  loop_inv self (processed ++ rest) acc'.
Proof.
  induction rest as [|item rest IH]; intros processed acc acc' Hinv Hrun.
  - cbn in Hrun. injection Hrun as <-. by rewrite app_nil_r.
  - cbn [collect_headings] in Hrun.
    destruct (visit self acc item) as [acc1|] eqn:Hvisit; [|done].
    cbn in Hrun. replace (processed ++ item :: rest)
      with ((processed ++ [item]) ++ rest) by (by rewrite <- app_assoc).
    eapply IH; [|done]. by eapply visit_inv.
Qed.

Lemma loop_inv_init self : loop_inv self [] ([], ∅).
Proof.
  split; cbn.
  - intros t. split; [by intros ?%elem_of_empty|by intros ?%elem_of_nil].
  - constructor.
  - by intros e ?%elem_of_nil.
  - by intros item e ?%elem_of_nil.
  - exists []. split; [done|constructor].
Qed.

(** ** Lengths of normalized texts *)

Lemma lstrip_length s : (String.length (Str.lstrip s) <= String.length s)%nat.
Proof.
  induction s as [|c s IH]; simpl; [lia|].
  destruct (Char.is_space c); simpl; lia.
Qed.

Lemma rstrip_length s : (String.length (Str.rstrip s) <= String.length s)%nat.
Proof.
  induction s as [|c s IH]; simpl; [lia|].
  destruct (Char.is_space c && Str.is_empty (Str.rstrip s)); simpl; lia.
Qed.

Lemma strip_len s : Str.len (Str.strip s) <= Str.len s.
Proof.
  unfold Str.len, Str.strip.
  pose proof (rstrip_length (Str.lstrip s)). pose proof (lstrip_length s). lia.
Qed.

Lemma collapse_ws_length s :
  (String.length (Str.collapse_ws s) <= String.length s)%nat.
Proof.
  induction s as [|c s IH]; [simpl; lia|].
  cbn [Str.collapse_ws].
  destruct (Char.is_space c); [|simpl; lia].
  destruct s as [|c' s]; [simpl; lia|].
  destruct (Char.is_space c'); cbn [String.length] in *; lia.
Qed.

Lemma normalized_len item : Str.len (normalized item) <= Str.len (Item.text item).
Proof.
  unfold normalized. pose proof (strip_len (Item.text item)).
  pose proof (collapse_ws_length (Str.strip (Item.text item))).
  unfold Str.len in *. lia.
Qed.

(** ** The title selector always answers *)

Lemma extract_title_source doc :
  exists t, extract_title doc = Ok t /\ title_source doc t.
Proof.
  unfold extract_title.
  destruct (List.filter _ doc) as [|first rest] eqn:Hpage.
  { eexists. split; [reflexivity|]. by left. }
  assert (forall item, In item (first :: rest) ->
                       item ∈ doc /\ Item.page item = 1) as Hfp.
  { intros item Hitem. rewrite <- Hpage in Hitem.
    apply filter_In in Hitem as [Hitem Hp].
    split; [by apply list_elem_of_In|by apply Z.eqb_eq]. }
  cbn [is_nil map py_max]. cbn [mbind result_bind].
  match goal with |- context [List.filter ?f (first :: rest)] =>
    destruct (List.filter f (first :: rest)) as [|candidate others] eqn:Hcand
  end.
  - match goal with |- context [find ?f ?l] =>
      destruct (find f l) as [item|] eqn:Hfind
    end.
    + eexists. split; [reflexivity|]. right; right.
      apply find_some in Hfind as [Hitem Hlooks].
      apply list_elem_of_In, elem_of_take in Hitem as (i & Hi & _).
      apply list_elem_of_lookup_2, list_elem_of_In, Hfp in Hi as [Hdoc Hp].
      exists item. repeat split; try done.
      all: unfold looks_like_title in Hlooks;
        apply andb_prop in Hlooks as [[[H5 H100]%andb_prop _]%andb_prop _];
        lia.
    + eexists. split; [reflexivity|]. by left.
  - eexists. split; [reflexivity|]. right; left.
    assert (In candidate (candidate :: others)) as Hc by by left.
    rewrite <- Hcand in Hc. apply filter_In in Hc as [Hc Hok].
    apply Hfp in Hc as [Hdoc Hp]. apply andb_prop in Hok as [_ Hlen].
    exists candidate. repeat split; try done. lia.
Qed.

(** ** The pipeline on well-formed line records *)

Lemma classify_heading_level_ok self th text size page :
  font_thresholds self = Some th ->
  Str.strip text <> "" ->
  exists level, classify_heading_level self text size page = Ok level.
Proof.
  intros Hth Hne. unfold classify_heading_level.
  destruct (gate_rejects_nonempty self _ Hne) as [b ->]. cbn.
  destruct b; [eauto|]. rewrite Hth.
  destruct (level_by_font_size th size page); eauto.
Qed.

Lemma visit_ok self th acc item :
  font_thresholds self = Some th -> has_text item ->
  exists acc', visit self acc item = Ok acc'.
Proof.
  intros Hth Hitem. unfold visit. destruct acc as [outline seen].
  destruct (classify_heading_level_ok self th (Item.text item)
              (Item.font_size item) (Item.page item) Hth Hitem) as [level ->].
  cbn. destruct level as [l|]; [|eauto].
  destruct (bool_decide (l ≠ Title)); [|eauto].
  destruct (_ && _); eauto.
Qed.

Lemma collect_headings_ok self th doc : forall acc,
  font_thresholds self = Some th -> Forall has_text doc ->
  exists acc', collect_headings self doc acc = Ok acc'.
Proof.
  induction doc as [|item doc IH]; intros acc Hth Hdoc; [cbn; eauto|].
  inversion_clear Hdoc as [|? ? Hitem Hrest].
  cbn [collect_headings].
  destruct (visit_ok self th acc item Hth Hitem) as [acc1 ->]. cbn.
  by apply IH.
Qed.

(** What a run on well-formed records computes: the result, the list
    accumulated by the loop, and the invariant of the loop at its end. *)
Lemma extract_outline_run self doc :
  Forall has_text doc ->
  exists r acc seen,
    fst (extract_outline self doc) = Ok r
    /\ outline r = stable_sort by_page acc
    /\ loop_inv (snd (extract_outline self doc)) doc (acc, seen)
    /\ (doc = [] /\ title r = "Empty Document" \/ title_source doc (title r)).
Proof.
  intros Hdoc. destruct doc as [|item doc].
  { exists {| title := "Empty Document"; outline := [] |}, [], ∅.
    split; [done|]. split; [done|]. split; [apply loop_inv_init|by left]. }
  unfold extract_outline. cbn [is_nil].
  destruct (determine_font_thresholds_ok (item :: doc)) as [th ->]; [done|].
  cbn [fst snd].
  destruct (extract_title_source (item :: doc)) as (t & -> & Ht).
  set (self' := {| heading_patterns := heading_patterns self;
                   font_thresholds := Some th |}).
  destruct (collect_headings_ok self' th (item :: doc) ([], ∅))
    as [[acc seen] Hrun]; [done..|].
  rewrite Hrun. cbn.
  exists {| title := t; outline := stable_sort by_page acc |}, acc, seen.
  split; [done|]. split; [done|]. split; [|by right].
  apply (collect_headings_inv self' (item :: doc) [] ([], ∅) (acc, seen));
    [apply loop_inv_init|done].
Qed.

(** ** The assembled outline *)

Lemma Sorted_weaken {A} (R R' : A -> A -> Prop) l :
  (forall x y, R x y -> R' x y) -> Sorted R l -> Sorted R' l.
Proof.
  intros HR. induction 1 as [|a l _ IH Hd]; constructor; [done|].
  destruct Hd; constructor. by apply HR.
Qed.

Lemma by_page_asym x y : by_page x y = true -> by_page y x = false.
Proof. unfold by_page. rewrite Z.ltb_lt, Z.ltb_ge. lia. Qed.

Lemma has_text_sample_intro : Forall has_text Sample.intro_doc.
Proof. repeat constructor; by vm_compute. Defined.

(** C5 (as stated) fails on [Sample.running_header_doc]: both records
    normalize to "Annual Report"; the first one, on page 1, is classified
    title and left out, and the entry comes from the later one on page 2. *)
Lemma later_occurrence_kept :
  ~ (forall doc r e pre item post,
       fst (extract_outline init doc) = Ok r ->
       e ∈ outline r ->
       doc = pre ++ item :: post ->
       normalized item = Entry.text e ->
       (forall item', item' ∈ pre -> normalized item' <> Entry.text e) ->
       Entry.page e = Item.page item).
Proof.
  intros H.
  specialize (H Sample.running_header_doc
                {| title := "Annual Report";
                   outline := [ Entry.mk H1 "Annual Report" 2 ] |}
                (Entry.mk H1 "Annual Report" 2)
                [] (Sample.line "Annual Report" 24 1)
                [Sample.line "Annual Report" 24 2]).
  cbn [Entry.page Item.page Sample.line outline] in H.
  assert (2 = 1) as Habs; [|discriminate Habs].
  apply H.
  - vm_compute. reflexivity.
  - apply list_elem_of_singleton. reflexivity.
  - reflexivity.
  - vm_compute. reflexivity.
  - intros item' Hin. by apply elem_of_nil in Hin.
Qed.

(** C5 (as amended): no two entries of the outline have the same text
    (compared as exact strings); the text of every record that qualifies
    for the outline (classified H1, H2 or H3, normalized text longer than
    2 characters) is the text of an entry; and every entry is built from
    the first qualifying record with its text, so that later qualifying
    records with that text are dropped whatever their page or level.  A
    record that does not qualify, such as one classified title, does not
    count as an occurrence. *)
Theorem outline_texts_unique (self : extractor) (doc : list Item.t) :
  Forall has_text doc ->
  let self' := snd (extract_outline self doc) in
  exists r,
    fst (extract_outline self doc) = Ok r
    /\ NoDup (map Entry.text (outline r))
    /\ (forall item e, item ∈ doc -> emits self' item e ->
                       Entry.text e ∈ map Entry.text (outline r))
    /\ (forall e, e ∈ outline r -> first_source self' doc e).
Proof.
  intros Hdoc self'.
  destruct (extract_outline_run self doc Hdoc)
    as (r & acc & seen & Hr & Ho & [Hseen Hnodup Hfirst Hknown _] & _).
  cbn [fst snd] in *. exists r. rewrite Ho.
  split; [done|]. split; [|split].
  - by rewrite stable_sort_perm.
  - intros item e Hitem He. rewrite stable_sort_perm.
    apply Hseen. by eapply Hknown.
  - intros e He. rewrite stable_sort_perm in He. by apply Hfirst.
Qed.

Lemma outline_texts_unique_witness :
  exists r,
    fst (extract_outline init Sample.intro_doc) = Ok r
    /\ NoDup (map Entry.text (outline r))
    /\ (forall item e,
          item ∈ Sample.intro_doc ->
          emits (snd (extract_outline init Sample.intro_doc)) item e ->
          Entry.text e ∈ map Entry.text (outline r))
    /\ (forall e, e ∈ outline r ->
          first_source (snd (extract_outline init Sample.intro_doc))
            Sample.intro_doc e).
Proof.
  exact (outline_texts_unique init Sample.intro_doc has_text_sample_intro).
Defined.

(** Exact match is case-sensitive: two headings that differ in case only
    are both kept. *)
Example case_sensitive_dedup :
  fst (extract_outline init
         [ Sample.line "Report" 24 1; Sample.line "Scope Notes" 14 2;
           Sample.line "SCOPE NOTES" 14 3; Sample.line "Scope  Notes" 14 4 ])
  = Ok {| title := "Report";
          outline := [ Entry.mk H1 "Scope Notes" 2;
                       Entry.mk H1 "SCOPE NOTES" 3 ] |}.
Proof. vm_compute. reflexivity. Qed.

(** Entries met out of page order are moved, those of one page are not. *)
Example pages_out_of_order :
  fst (extract_outline init
         [ Sample.line "Report" 24 1; Sample.line "Beta" 14 3;
           Sample.line "Alpha" 14 2; Sample.line "Gamma" 14 3;
           Sample.line "Delta" 14 2 ])
  = Ok {| title := "Report";
          outline := [ Entry.mk H1 "Alpha" 2; Entry.mk H1 "Delta" 2;
                       Entry.mk H1 "Beta" 3; Entry.mk H1 "Gamma" 3 ] |}.
Proof. vm_compute. reflexivity. Qed.

(** ** The length limits *)

(** C3 (as stated) fails for the upper limit: the two lines of
    [Sample.long_line_doc] have 201 characters; the one on page 1 is taken
    as the title by the primary scan and the one on page 2 is an outline
    entry. *)
Lemma long_line_accepted :
  200 < Str.len (Sample.repeat_A 201)
  /\ fst (extract_outline init Sample.long_line_doc)
     = Ok {| title := Sample.repeat_A 201;
             outline := [ Entry.mk H1 (Sample.repeat_A 201) 2 ] |}
  /\ ~ (forall doc r item e,
          fst (extract_outline init doc) = Ok r ->
          item ∈ doc ->
          200 < Str.len (Item.text item) ->
          e ∈ outline r ->
          Entry.text e <> normalized item).
Proof.
  split; [by vm_compute|]. split; [vm_compute; reflexivity|].
  intros H.
  apply (H Sample.long_line_doc
           {| title := Sample.repeat_A 201;
              outline := [ Entry.mk H1 (Sample.repeat_A 201) 2 ] |}
           (Sample.line (Sample.repeat_A 201) 12 2)
           (Entry.mk H1 (Sample.repeat_A 201) 2)).
  - vm_compute. reflexivity.
  - apply elem_of_cons; right. apply elem_of_cons; by left.
  - by vm_compute.
  - apply list_elem_of_singleton. reflexivity.
  - vm_compute. reflexivity.
Qed.

(** * Further properties *)

(** ** Stripped and collapsed strings *)

Lemma lstrip_head s : head_is_space (Str.lstrip s) = false.
Proof.
  induction s as [|c s IH]; [done|]. simpl.
  destruct (Char.is_space c) eqn:Hc; [done|]. simpl. by rewrite Hc.
Qed.

Lemma lstrip_id s : head_is_space s = false -> Str.lstrip s = s.
Proof. destruct s as [|c s]; [done|]. simpl. by intros ->. Qed.

Lemma rstrip_head s :
  head_is_space s = false -> head_is_space (Str.rstrip s) = false.
Proof. destruct s as [|c s]; [done|]. simpl. intros Hc. by rewrite Hc. Qed.

Lemma rstrip_idem s : Str.rstrip (Str.rstrip s) = Str.rstrip s.
Proof.
  induction s as [|c s IH]; [done|]. cbn [Str.rstrip].
  destruct (Char.is_space c && Str.is_empty (Str.rstrip s)) eqn:E; [done|].
  cbn [Str.rstrip]. rewrite IH. by rewrite E.
Qed.

Lemma rstrip_last s : last_is_space (Str.rstrip s) = false.
Proof.
  induction s as [|c s IH]; [done|]. cbn [Str.rstrip].
  destruct (Char.is_space c && Str.is_empty (Str.rstrip s)) eqn:E; [done|].
  cbn [last_is_space]. destruct (Str.rstrip s) as [|c' r]; [|done].
  by rewrite andb_true_r in E.
Qed.

Lemma rstrip_id s : last_is_space s = false -> Str.rstrip s = s.
Proof.
  induction s as [|c s IH]; [done|]. cbn [last_is_space Str.rstrip].
  destruct s as [|c' s'].
  - intros ->. done.
  - intros H. rewrite (IH H). cbn [Str.is_empty]. by rewrite andb_false_r.
Qed.

Lemma lstrip_last s : last_is_space s = false -> last_is_space (Str.lstrip s) = false.
Proof.
  induction s as [|c s IH]; [done|]. cbn [Str.lstrip].
  destruct (Char.is_space c) eqn:Hc; [|done].
  intros H. apply IH. destruct s; [|done]. simpl in H. congruence.
Qed.

Lemma strip_head s : head_is_space (Str.strip s) = false.
Proof. apply rstrip_head, lstrip_head. Qed.

Lemma strip_last s : last_is_space (Str.strip s) = false.
Proof. apply rstrip_last. Qed.

Lemma strip_id s :
  head_is_space s = false -> last_is_space s = false -> Str.strip s = s.
Proof.
  intros Hh Hl. unfold Str.strip. rewrite (lstrip_id s Hh). by apply rstrip_id.
Qed.

Lemma strip_idem s : Str.strip (Str.strip s) = Str.strip s.
Proof. apply strip_id; [apply strip_head|apply strip_last]. Qed.

Lemma collapse_ws_head s :
  head_is_space (Str.collapse_ws s) = head_is_space s.
Proof.
  induction s as [|c s IH]; [done|]. cbn [Str.collapse_ws head_is_space].
  destruct (Char.is_space c) eqn:Hc; [|simpl; by rewrite Hc].
  destruct s as [|c' s']; [done|].
  destruct (Char.is_space c') eqn:Hc'; [|done].
  rewrite IH. simpl. done.
Qed.

Lemma collapse_ws_empty s : Str.is_empty (Str.collapse_ws s) = Str.is_empty s.
Proof.
  induction s as [|c s IH]; [done|]. cbn [Str.collapse_ws Str.is_empty].
  destruct (Char.is_space c); [|done].
  destruct s as [|c' s']; [done|].
  destruct (Char.is_space c'); [|done]. rewrite IH. done.
Qed.

Lemma collapse_ws_last s :
  last_is_space (Str.collapse_ws s) = last_is_space s.
Proof.
  induction s as [|c s IH]; [done|]. cbn [Str.collapse_ws].
  destruct s as [|c' s'].
  - cbn. destruct (Char.is_space c) eqn:Hc; simpl; by rewrite ?Hc.
  - change (last_is_space (String c (String c' s')))
      with (last_is_space (String c' s')).
    rewrite <- IH.
    pose proof (collapse_ws_empty (String c' s')) as He.
    destruct (Char.is_space c).
    + destruct (Char.is_space c'); [done|].
      destruct (Str.collapse_ws (String c' s')); [done|done].
    + destruct (Str.collapse_ws (String c' s')); [done|done].
Qed.

Lemma collapse_ws_unfold c s :
  Str.collapse_ws (String c s)
  = if Char.is_space c then
      match s with
      | String c' _ =>
          if Char.is_space c' then Str.collapse_ws s
          else String " " (Str.collapse_ws s)
      | EmptyString => " "
      end
    else String c (Str.collapse_ws s).
Proof. destruct s; reflexivity. Qed.

Lemma collapse_ws_idem s :
  Str.collapse_ws (Str.collapse_ws s) = Str.collapse_ws s.
Proof.
  induction s as [|c s IH]; [done|]. rewrite (collapse_ws_unfold c s).
  destruct (Char.is_space c) eqn:Hc.
  - destruct s as [|c' s']; [done|].
    destruct (Char.is_space c') eqn:Hc'; [exact IH|].
    pose proof (collapse_ws_head (String c' s')) as Hh.
    pose proof (collapse_ws_empty (String c' s')) as He.
    cbn [head_is_space Str.is_empty] in Hh, He. rewrite Hc' in Hh.
    set (t := Str.collapse_ws (String c' s')) in *.
    rewrite collapse_ws_unfold. change (Char.is_space " ") with true. cbv iota.
    destruct t as [|d r]; [done|].
    cbn [head_is_space] in Hh. rewrite Hh. by rewrite IH.
  - rewrite collapse_ws_unfold, Hc. by rewrite IH.
Qed.

Lemma normalized_stripped s :
  Str.strip (Str.collapse_ws (Str.strip s)) = Str.collapse_ws (Str.strip s).
Proof.
  apply strip_id.
  - rewrite collapse_ws_head. apply strip_head.
  - rewrite collapse_ws_last. apply strip_last.
Qed.

(** ** The text extractor *)

Lemma append_nil_r (s : string) : s +:+ "" = s.
Proof.
  induction s as [|c s IH]; [done|]. rewrite ReFacts.append_cons. by rewrite IH.
Qed.

Lemma scan_spans_spec spans : forall line_text font_sizes,
  scan_spans spans line_text font_sizes
  = (line_text +:+ spaced (span_words spans), font_sizes ++ span_sizes spans).
Proof.
  induction spans as [|span spans IH]; intros line_text font_sizes.
  - cbn. by rewrite append_nil_r, app_nil_r.
  - cbn [scan_spans]. unfold span_words, span_sizes in *.
    cbn [map List.filter].
    destruct (negb (Str.is_empty (Str.strip (Pdf.text span)))) eqn:E.
    + rewrite IH. cbn [spaced map]. f_equal.
      * by rewrite !ReFacts.append_assoc.
      * by rewrite <- app_assoc.
    + apply IH.
Qed.

Lemma span_words_nil spans : is_nil (span_sizes spans) = is_nil (span_words spans).
Proof.
  unfold span_sizes, span_words.
  induction spans as [|span spans IH]; [done|]. cbn [map List.filter].
  by destruct (negb (Str.is_empty (Str.strip (Pdf.text span)))).
Qed.

Lemma span_words_stripped spans :
  Forall (fun w => Str.strip w = w /\ w <> "") (span_words spans).
Proof.
  unfold span_words. apply Forall_forall. intros w Hw.
  apply list_elem_of_In, filter_In in Hw as [Hw Hne].
  apply in_map_iff in Hw as (span & <- & _).
  split; [apply strip_idem|]. intros H. by rewrite H in Hne.
Qed.

Lemma rstrip_append a b :
  Str.rstrip (a +:+ b)
  = if Str.is_empty (Str.rstrip b) then Str.rstrip a else a +:+ Str.rstrip b.
Proof.
  induction a as [|c a IH].
  - rewrite !ReFacts.append_nil_l. by destruct (Str.rstrip b).
  - rewrite ReFacts.append_cons. cbn [Str.rstrip]. rewrite IH.
    destruct (Str.is_empty (Str.rstrip b)) eqn:Hb; [done|].
    rewrite ReFacts.append_cons.
    destruct (Char.is_space c); [|done]. cbn [andb].
    destruct a; [|done]. rewrite ReFacts.append_nil_l. by rewrite Hb.
Qed.

Lemma stripped_nonempty_head w :
  Str.strip w = w -> w <> "" ->
  exists c r, w = String c r /\ Char.is_space c = false.
Proof.
  intros Hw Hne. destruct w as [|c r]; [done|]. exists c, r. split; [done|].
  pose proof (strip_head (String c r)) as H. by rewrite Hw in H.
Qed.

Lemma join_spaces_cons w rest :
  rest <> [] -> join_spaces (w :: rest) = w +:+ " " +:+ join_spaces rest.
Proof. by destruct rest. Qed.

Lemma join_spaces_nonempty words :
  Forall (fun w => Str.strip w = w /\ w <> "") words -> words <> [] ->
  Str.is_empty (join_spaces words) = false.
Proof.
  intros Hw Hne. destruct Hw as [|w rest [Hs Hn] _]; [done|].
  destruct (stripped_nonempty_head w Hs Hn) as (c & r & -> & _).
  destruct rest; [done|]. rewrite join_spaces_cons by done.
  by rewrite ReFacts.append_cons.
Qed.

Lemma rstrip_spaced words :
  Forall (fun w => Str.strip w = w /\ w <> "") words ->
  Str.rstrip (spaced words) = join_spaces words.
Proof.
  induction 1 as [|w rest [Hs Hn] Hrest IH]; [done|].
  cbn [spaced]. rewrite rstrip_append.
  assert (Str.rstrip w = w) as Hw.
  { apply rstrip_id. rewrite <- Hs. apply strip_last. }
  destruct rest as [|w' rest'].
  - cbn [spaced]. rewrite append_nil_r. by cbn.
  - rewrite rstrip_append. rewrite IH.
    rewrite join_spaces_nonempty by done.
    rewrite (join_spaces_cons w) by done.
    set (j := join_spaces (w' :: rest')).
    assert (Str.is_empty j = false) as Hj by (by apply join_spaces_nonempty).
    destruct j; [done|]. reflexivity.
Qed.

Lemma strip_spaced words :
  Forall (fun w => Str.strip w = w /\ w <> "") words ->
  Str.strip (spaced words) = join_spaces words.
Proof.
  intros Hw. unfold Str.strip. rewrite lstrip_id; [by apply rstrip_spaced|].
  destruct Hw as [|w rest [Hs Hn] _]; [done|].
  destruct (stripped_nonempty_head w Hs Hn) as (c & r & -> & Hc).
  cbn [spaced]. by rewrite ReFacts.append_cons.
Qed.

Lemma StronglySorted_append {A} (R : A -> A -> Prop) (l1 l2 : list A) :
  (forall x y, x ∈ l1 -> y ∈ l2 -> R x y) ->
  StronglySorted R l1 -> StronglySorted R l2 -> StronglySorted R (l1 ++ l2).
Proof.
  intros Hcross H1 H2. induction H1 as [|x l1 Hl1 IH Hx]; [done|].
  cbn. constructor.
  - apply IH. intros a b Ha Hb. apply Hcross; [|done].
    apply elem_of_cons; by right.
  - apply Forall_app. split; [done|]. apply Forall_forall. intros y Hy.
    apply Hcross; [|done]. apply elem_of_cons; by left.
Qed.

Lemma StronglySorted_sub {A} (R : A -> A -> Prop) (k l : list A) :
  k `sublist_of` l -> StronglySorted R l -> StronglySorted R k.
Proof.
  induction 1 as [|x k l Hkl IH|x k l Hkl IH]; intros Hl; [done| |].
  - inversion_clear Hl as [|? ? Hs Hall]. constructor; [by apply IH|].
    rewrite Forall_forall in *. intros y Hy. apply Hall.
    by eapply elem_of_sublist.
  - inversion_clear Hl. by apply IH.
Qed.

Section ExtractionFacts.
Variable average : list Q -> Q.

(** X1: a line yields a record exactly when one of its spans has a
    non-blank text; the text of the record is then the stripped texts of
    those spans joined by single spaces, its size the average of their
    sizes, and its page the page index plus one. *)
Theorem scan_line_joins_words (page_num : nat) (line : Pdf.line) :
  scan_line average page_num line
  = match span_words (Pdf.spans line) with
    | [] => []
    | words =>
        [ Item.mk (join_spaces words) (average (span_sizes (Pdf.spans line)))
            (Z.of_nat page_num + 1) (Pdf.bbox line) ]
    end.
Proof.
  unfold scan_line. rewrite scan_spans_spec.
  rewrite ReFacts.append_nil_l, app_nil_l.
  pose proof (span_words_stripped (Pdf.spans line)) as Hw.
  rewrite (strip_spaced _ Hw), span_words_nil.
  destruct (span_words (Pdf.spans line)) as [|w rest] eqn:E; [done|].
  rewrite join_spaces_nonempty by done. done.
Qed.

Lemma scan_line_records page_num line item :
  item ∈ scan_line average page_num line ->
  Str.strip (Item.text item) = Item.text item
  /\ Item.text item <> ""
  /\ Item.page item = Z.of_nat page_num + 1.
Proof.
  rewrite scan_line_joins_words.
  pose proof (span_words_stripped (Pdf.spans line)) as Hw.
  destruct (span_words (Pdf.spans line)) as [|w rest] eqn:E;
    [by intros ?%elem_of_nil|].
  intros ->%list_elem_of_singleton. cbn [Item.text Item.page].
  split; [|split; [|done]].
  - rewrite <- (strip_spaced _ Hw). apply strip_idem.
  - intros H. pose proof (join_spaces_nonempty _ Hw) as Hj.
    rewrite H in Hj. by discriminate Hj.
Qed.

Lemma scan_page_records page_num page item :
  item ∈ scan_page average page_num page ->
  Str.strip (Item.text item) = Item.text item
  /\ Item.text item <> ""
  /\ Item.page item = Z.of_nat page_num + 1.
Proof.
  unfold scan_page, scan_block. intros Hitem.
  apply list_elem_of_In, in_flat_map in Hitem as (block & _ & Hitem).
  destruct (Pdf.lines block) as [lines|]; [|done].
  apply in_flat_map in Hitem as (line & _ & Hitem).
  by eapply scan_line_records, list_elem_of_In.
Qed.

Lemma scan_pages_records pages : forall page_num item,
  item ∈ scan_pages average page_num pages ->
  Str.strip (Item.text item) = Item.text item
  /\ Item.text item <> ""
  /\ Z.of_nat page_num + 1 <= Item.page item
     <= Z.of_nat page_num + Z.of_nat (length pages).
Proof.
  induction pages as [|page pages IH]; intros page_num item Hitem.
  - by apply elem_of_nil in Hitem.
  - cbn [scan_pages] in Hitem. apply elem_of_app in Hitem as [Hitem|Hitem].
    + apply scan_page_records in Hitem as (Hs & Hn & Hp).
      split; [done|]. split; [done|]. cbn [length]. lia.
    + apply IH in Hitem as (Hs & Hn & Hp).
      split; [done|]. split; [done|]. cbn [length]. lia.
Qed.

Lemma scan_pages_ordered pages : forall page_num,
  page_ordered (scan_pages average page_num pages).
Proof.
  unfold page_ordered.
  induction pages as [|page pages IH]; intros page_num; [constructor|].
  cbn [scan_pages]. apply StronglySorted_append; [| |apply IH].
  - intros x y Hx Hy. apply scan_page_records in Hx as (_ & _ & Hx).
    apply scan_pages_records in Hy as (_ & _ & Hy). lia.
  - assert (Forall (fun item => Item.page item = Z.of_nat page_num + 1)
              (scan_page average page_num page)) as Hall.
    { apply Forall_forall. intros item Hitem.
      by apply scan_page_records in Hitem as (_ & _ & Hp). }
    induction Hall as [|x l Hx Hl IHl]; constructor; [done|].
    apply Forall_forall. intros y Hy.
    rewrite Forall_forall in Hl. rewrite Hx, (Hl y Hy). lia.
Qed.

(** X2: every record that the extractor returns has a text that is
    stripped and not empty and a page number between 1 and the number of
    pages; so every record satisfies the precondition of the classifier,
    and the records are in page order. *)
Theorem extracted_records_well_formed (doc : Pdf.document) :
  let formatted_text := extract_text_with_formatting average doc in
  Forall (fun item => Str.strip (Item.text item) = Item.text item
                      /\ Item.text item <> ""
                      /\ 1 <= Item.page item <= Z.of_nat (length doc))
         formatted_text
  /\ Forall has_text formatted_text
  /\ page_ordered formatted_text.
Proof.
  cbn zeta. unfold extract_text_with_formatting.
  assert (forall item, item ∈ scan_pages average 0 doc ->
            Str.strip (Item.text item) = Item.text item
            /\ Item.text item <> ""
            /\ 1 <= Item.page item <= Z.of_nat (length doc)) as H.
  { intros item Hitem. apply scan_pages_records in Hitem as (Hs & Hn & Hp).
    repeat split; try done; lia. }
  split; [by apply Forall_forall|]. split; [|apply scan_pages_ordered].
  apply Forall_forall. intros item Hitem. apply H in Hitem as (Hs & Hn & _).
  unfold has_text. by rewrite Hs.
Qed.

End ExtractionFacts.

(** ** More on the pipeline *)

Lemma stable_sort_sorted_id {A} (before : A -> A -> bool) l :
  Sorted (in_order before) l -> stable_sort before l = l.
Proof.
  induction 1 as [|x l Hl IH Hx]; [done|].
  cbn [stable_sort]. rewrite IH.
  destruct Hx as [|y l' Hxy]; [done|]. cbn [insert_sorted].
  unfold in_order in Hxy. by rewrite Hxy.
Qed.

Lemma emitted_pages_ordered self sub acc :
  Forall2 (emits self) sub acc -> page_ordered sub ->
  Sorted (in_order by_page) acc.
Proof.
  intros Hemit Hsub. apply StronglySorted_Sorted.
  unfold page_ordered in Hsub.
  induction Hemit as [|item e sub acc He Hrest IH]; [constructor|].
  inversion_clear Hsub as [|? ? Hs Hall]. constructor; [by apply IH|].
  rewrite Forall_forall in Hall. apply Forall_forall. intros e' He'.
  destruct (proj1 (list_elem_of_lookup _ _) He') as [i Hi].
  destruct (Forall2_lookup_r _ _ _ _ _ Hrest Hi) as (item' & Hi' & He'').
  apply list_elem_of_lookup_2 in Hi'.
  specialize (Hall item' Hi').
  destruct He as (_ & _ & _ & Hp & _), He'' as (_ & _ & _ & Hp' & _).
  unfold in_order, by_page. rewrite Z.ltb_ge. lia.
Qed.

Lemma extract_outline_state self doc th :
  doc <> [] -> determine_font_thresholds doc = Ok th ->
  snd (extract_outline self doc)
  = {| heading_patterns := heading_patterns self; font_thresholds := Some th |}.
Proof.
  intros Hne Hth. unfold extract_outline.
  destruct doc; [done|]. cbn [is_nil]. by rewrite Hth.
Qed.

Lemma collect_headings_blank self th doc : forall acc,
  font_thresholds self = Some th ->
  Exists (fun item => Str.strip (Item.text item) = "") doc ->
  collect_headings self doc acc = Raise IndexError.
Proof.
  induction doc as [|item doc IH]; intros acc Hth Hblank.
  - by apply Exists_nil in Hblank.
  - cbn [collect_headings].
    destruct (Str.strip (Item.text item)) as [|c s] eqn:Hs.
    + unfold visit. destruct acc as [outline seen].
      unfold classify_heading_level. by rewrite Hs.
    + destruct (visit_ok self th acc item Hth) as [acc' ->].
      { unfold has_text. by rewrite Hs. }
      cbn. apply IH; [done|].
      apply Exists_cons in Hblank as [Hblank|Hblank]; [congruence|done].
Qed.

Lemma has_text_or_blank doc :
  Forall has_text doc
  \/ Exists (fun item => Str.strip (Item.text item) = "") doc.
Proof.
  induction doc as [|item doc [IH|IH]].
  - left. constructor.
  - destruct (Str.strip (Item.text item)) as [|c s] eqn:Hs.
    + right. by left.
    + left. constructor; [|done]. unfold has_text. by rewrite Hs.
  - right. by right.
Qed.

(** X3: on a list of line records the pipeline either returns a result,
    and then no record has a blank text, or raises; the only exception is
    IndexError, it is raised exactly when some record has a blank text, and
    [process_single_pdf] then writes the error record. *)
Theorem extract_outline_raises_on_blank_text
    (self : extractor) (doc : list Item.t) :
  match fst (extract_outline self doc) with
  | Ok _ => Forall has_text doc
  | Raise e =>
      e = IndexError
      /\ Exists (fun item => Str.strip (Item.text item) = "") doc
      /\ process_single_pdf (Ok doc) = error_result
  end.
Proof.
  destruct (has_text_or_blank doc) as [Hok|Hblank].
  - destruct (extract_outline_run self doc Hok) as (r & _ & _ & -> & _). done.
  - assert (doc <> []) as Hne by (intros ->; by apply Exists_nil in Hblank).
    assert (forall s, fst (extract_outline s doc) = Raise IndexError) as Hraise.
    { intros s. unfold extract_outline. destruct doc as [|item doc]; [done|].
      cbn [is_nil].
      destruct (determine_font_thresholds_ok (item :: doc) Hne) as [th ->].
      cbn [fst].
      destruct (extract_title_source (item :: doc)) as (t & -> & _).
      unfold mbind at 1. unfold result_bind at 1. cbv beta iota.
      by rewrite (collect_headings_blank _ th). }
    rewrite Hraise. split; [done|]. split; [done|].
    unfold process_single_pdf. by rewrite Hraise.
Qed.

Lemma extract_outline_page_ordered (self : extractor) (doc : list Item.t) :
  Forall has_text doc -> page_ordered doc ->
  exists r,
    fst (extract_outline self doc) = Ok r
    /\ in_encounter_order (snd (extract_outline self doc)) doc (outline r).
Proof.
  intros Hdoc Hpages.
  destruct (extract_outline_run self doc Hdoc)
    as (r & acc & seen & Hr & Ho & [_ _ _ _ Horder] & _).
  cbn [fst snd] in Horder. exists r. split; [done|]. rewrite Ho.
  destruct Horder as (sub & Hsub & Hemit).
  rewrite stable_sort_sorted_id.
  - by exists sub.
  - eapply emitted_pages_ordered; [done|].
    by eapply StronglySorted_sub.
Qed.

(** X5: every outline entry has level H1, H2 or H3, never title, and the
    page number of one of the records; the outline has at most as many
    entries as there are records. *)
Theorem outline_levels_and_size (self : extractor) (doc : list Item.t) :
  Forall has_text doc ->
  exists r,
    fst (extract_outline self doc) = Ok r
    /\ (forall e, e ∈ outline r ->
          (Entry.level e = H1 \/ Entry.level e = H2 \/ Entry.level e = H3)
          /\ exists item, item ∈ doc /\ Entry.page e = Item.page item)
    /\ (length (outline r) <= length doc)%nat.
Proof.
  intros Hdoc.
  destruct (extract_outline_run self doc Hdoc)
    as (r & acc & seen & Hr & Ho & [_ _ Hfirst _ Horder] & _).
  cbn [fst snd] in *. exists r. split; [done|]. rewrite Ho. split.
  - intros e He. rewrite stable_sort_perm in He.
    destruct (Hfirst e He) as (pre & item & post & -> & Hemit & _).
    destruct Hemit as (_ & Hl & _ & Hp & _). split.
    + destruct (Entry.level e); tauto.
    + exists item. split; [|done].
      apply elem_of_app; right. apply elem_of_cons; by left.
  - rewrite (Permutation_length (stable_sort_perm by_page acc)).
    destruct Horder as (sub & Hsub & Hemit).
    rewrite <- (Forall2_length _ _ _ Hemit). by apply sublist_length.
Qed.

Lemma outline_levels_and_size_witness :
  exists r,
    fst (extract_outline init Sample.intro_doc) = Ok r
    /\ (forall e, e ∈ outline r ->
          (Entry.level e = H1 \/ Entry.level e = H2 \/ Entry.level e = H3)
          /\ exists item, item ∈ Sample.intro_doc
                          /\ Entry.page e = Item.page item)
    /\ (length (outline r) <= length Sample.intro_doc)%nat.
Proof.
  exact (outline_levels_and_size init Sample.intro_doc has_text_sample_intro).
Defined.

(** X6: the text of every outline entry is in normal form: stripping it
    or collapsing its whitespace again changes nothing, so it has no
    leading or trailing whitespace and no whitespace other than single
    spaces. *)
Theorem outline_texts_normalized (self : extractor) (doc : list Item.t) :
  Forall has_text doc ->
  exists r,
    fst (extract_outline self doc) = Ok r
    /\ forall e, e ∈ outline r ->
         Str.strip (Entry.text e) = Entry.text e
         /\ Str.collapse_ws (Entry.text e) = Entry.text e.
Proof.
  intros Hdoc.
  destruct (extract_outline_run self doc Hdoc)
    as (r & acc & seen & Hr & Ho & [_ _ Hfirst _ _] & _).
  cbn [fst snd] in *. exists r. split; [done|]. rewrite Ho.
  intros e He. rewrite stable_sort_perm in He.
  destruct (Hfirst e He) as (pre & item & post & _ & Hemit & _).
  destruct Hemit as (_ & _ & -> & _). unfold normalized.
  split; [apply normalized_stripped|apply collapse_ws_idem].
Qed.

Lemma outline_texts_normalized_witness :
  exists r,
    fst (extract_outline init Sample.intro_doc) = Ok r
    /\ forall e, e ∈ outline r ->
         Str.strip (Entry.text e) = Entry.text e
         /\ Str.collapse_ws (Entry.text e) = Entry.text e.
Proof.
  exact (outline_texts_normalized init Sample.intro_doc has_text_sample_intro).
Defined.

(** X7: the title selector never raises, and the title it returns has no
    leading or trailing whitespace. *)
Theorem extract_title_stripped (doc : list Item.t) :
  exists t, extract_title doc = Ok t /\ Str.strip t = t.
Proof.
  destruct (extract_title_source doc) as (t & Ht & Hsrc).
  exists t. split; [done|].
  destruct Hsrc as [->|[(item & _ & _ & _ & ->)|(item & _ & _ & _ & ->)]];
    [by vm_compute|apply strip_idem..].
Qed.

(** ** Lines that cannot be headings *)

Lemma dead_nullable b rest r : is_dead r = true -> Re.nullable b rest r = false.
Proof.
  induction r; cbn; try done.
  - intros [H|H]%orb_prop; [rewrite IHr1|rewrite IHr2]; by rewrite ?andb_false_r.
  - intros [H1 H2]%andb_prop. by rewrite IHr1, IHr2.
Qed.

Lemma dead_deriv b rest c r :
  is_dead r = true -> is_dead (Re.deriv b rest c r) = true.
Proof.
  induction r; cbn; try done.
  - intros H. destruct (Re.nullable b rest r1) eqn:Hn.
    + cbn. apply orb_prop in H as [H|H].
      * by rewrite (dead_nullable b rest r1 H) in Hn.
      * rewrite H, (IHr2 H). by rewrite orb_true_r.
    + cbn. apply orb_prop in H as [H|H]; [by rewrite IHr1|].
      rewrite H. apply orb_true_r.
  - intros [H1 H2]%andb_prop. by rewrite IHr1, IHr2.
Qed.

Lemma dead_match_from s : forall b r,
  is_dead r = true -> Re.match_from b r s = false.
Proof.
  induction s as [|c s IH]; intros b r Hr; cbn.
  - by rewrite dead_nullable.
  - rewrite dead_nullable by done. cbn. apply IH. by apply dead_deriv.
Qed.

Lemma eqb_upper a c :
  Char.is_upper a = true -> Char.is_upper c = false -> Char.eqb a c = false.
Proof.
  unfold Char.is_upper, Char.in_range, Char.eqb. intros Ha Hc.
  destruct (N.eqb_spec (Char.code a) (Char.code c)) as [E|]; [|done].
  rewrite E in Ha. congruence.
Qed.

Lemma first_char_dead r c s :
  Re.nullable true (String c s) r = false ->
  is_dead (Re.deriv true (String c s) c r) = true ->
  Re.re_match r (String c s) = false.
Proof.
  intros Hn Hd. unfold Re.re_match. cbn [Re.match_from]. rewrite Hn.
  by apply dead_match_from.
Qed.

Lemma patterns_need_upper_or_digit c s :
  Char.is_upper c = false -> Char.is_digit c = false ->
  existsb (fun pattern => Re.re_match pattern (String c s))
    (heading_patterns init) = false.
Proof.
  intros Hu Hd.
  assert (Char.eqb "C" c = false) as HC by (by apply eqb_upper).
  assert (Char.eqb "S" c = false) as HS by (by apply eqb_upper).
  cbn [heading_patterns init existsb].
  repeat (rewrite first_char_dead;
          [|cbn -[Char.is_digit Char.is_upper Char.eqb Char.is_space
                  Char.is_lower];
            rewrite ?Hu, ?Hd, ?HC, ?HS; reflexivity..]).
  reflexivity.
Qed.

Lemma upper_or_digit_not_space c :
  Char.is_upper c = true \/ Char.is_digit c = true -> Char.is_space c = false.
Proof.
  unfold Char.is_upper, Char.is_digit, Char.is_space, Char.in_range.
  intros H. apply orb_false_iff. split; [apply orb_false_iff; split|].
  - destruct H as [H|H]; apply andb_prop in H as [H1 H2];
      apply N.leb_le in H1, H2; apply andb_false_iff; right; apply N.leb_gt; lia.
  - destruct H as [H|H]; apply andb_prop in H as [H1 H2];
      apply N.leb_le in H1, H2; apply andb_false_iff; right; apply N.leb_gt; lia.
  - destruct H as [H|H]; apply andb_prop in H as [H1 H2];
      apply N.leb_le in H1, H2; apply N.eqb_neq; lia.
Qed.

Lemma gate_rejects_other_first_char self c s :
  heading_patterns self = heading_patterns init ->
  Str.strip (String c s) = String c s ->
  Char.is_upper c = false -> Char.is_digit c = false ->
  gate_rejects self (String c s) = Ok true.
Proof.
  intros Hp Hs Hu Hd. unfold gate_rejects, is_heading_by_pattern.
  rewrite Hs, Hp, patterns_need_upper_or_digit by done.
  destruct (_ || _); cbn; by rewrite Hu.
Qed.

(** ** More on the thresholds *)

Lemma counter_keys_from_sub seen l k :
  k ∈ counter_keys_from seen l -> k ∈ l.
Proof.
  revert seen. induction l as [|x l IH]; intros seen; cbn [counter_keys_from].
  - done.
  - destruct (existsb (Qeq_bool x) seen).
    + intros H. apply elem_of_cons; right. by eapply IH.
    + intros [->|H]%elem_of_cons; apply elem_of_cons; [by left|right].
      by eapply IH.
Qed.

Lemma unique_sizes_from_doc doc k :
  k ∈ unique_sizes doc -> exists item, item ∈ doc /\ Item.font_size item = k.
Proof.
  unfold unique_sizes. rewrite stable_sort_perm. intros Hk.
  apply counter_keys_from_sub, list_elem_of_fmap in Hk as (item & -> & Hitem).
  by exists item.
Qed.

Lemma sorted_desc_head (l : list Q) : forall a x,
  Sorted (fun x y => (y <= x)%Q) (a :: l) -> x ∈ a :: l -> (x <= a)%Q.
Proof.
  induction l as [|b l IH]; intros a x Hs Hx.
  - apply list_elem_of_singleton in Hx as ->. apply Qle_refl.
  - apply elem_of_cons in Hx as [->|Hx]; [apply Qle_refl|].
    inversion_clear Hs as [|? ? Hs' Hab]. inversion_clear Hab.
    apply Qle_trans with b; [by apply IH|done].
Qed.

Lemma title_threshold_is_largest doc th item :
  determine_font_thresholds doc = Ok th -> item ∈ doc ->
  (Item.font_size item <= th_title th)%Q.
Proof.
  intros Hth Hitem. apply determine_font_thresholds_cases in Hth.
  destruct (unique_sizes_covers doc item Hitem) as (k & Hk & Hq).
  pose proof (unique_sizes_Sorted doc) as Hs. rewrite Hq.
  destruct (unique_sizes doc) as [|a [|b [|c [|d l]]]]; [done|subst th; cbn..];
    by eapply sorted_desc_head.
Qed.

Lemma thresholds_in_unique_sizes doc th :
  determine_font_thresholds doc = Ok th ->
  th_title th ∈ unique_sizes doc /\ th_h1 th ∈ unique_sizes doc
  /\ th_h2 th ∈ unique_sizes doc /\ th_h3 th ∈ unique_sizes doc.
Proof.
  intros Hth. apply determine_font_thresholds_cases in Hth.
  destruct (unique_sizes doc) as [|a [|b [|c [|d l]]]]; [done|subst th; cbn..];
    rewrite !elem_of_cons; tauto.
Qed.

(** X10: each of the four thresholds is the font size of some record of
    the document, and the title threshold is the largest font size: no
    record is larger. *)
Theorem thresholds_are_sizes_of_records (doc : list Item.t) (th : FontThresholds) :
  determine_font_thresholds doc = Ok th ->
  (forall item, item ∈ doc -> (Item.font_size item <= th_title th)%Q)
  /\ Exists (fun item => Item.font_size item = th_title th) doc
  /\ Exists (fun item => Item.font_size item = th_h1 th) doc
  /\ Exists (fun item => Item.font_size item = th_h2 th) doc
  /\ Exists (fun item => Item.font_size item = th_h3 th) doc.
Proof.
  intros Hth. split; [intros item; by apply title_threshold_is_largest|].
  destruct (thresholds_in_unique_sizes doc th Hth) as (H0 & H1 & H2 & H3).
  repeat split; apply Exists_exists;
    [destruct (unique_sizes_from_doc _ _ H0) as (i & ? & ?)
    |destruct (unique_sizes_from_doc _ _ H1) as (i & ? & ?)
    |destruct (unique_sizes_from_doc _ _ H2) as (i & ? & ?)
    |destruct (unique_sizes_from_doc _ _ H3) as (i & ? & ?)];
    by exists i.
Qed.

Lemma thresholds_are_sizes_of_records_witness :
  (forall item, item ∈ Sample.five_sizes_doc -> (Item.font_size item <= 24)%Q)
  /\ Exists (fun item => Item.font_size item = 24%Q) Sample.five_sizes_doc
  /\ Exists (fun item => Item.font_size item = 20%Q) Sample.five_sizes_doc
  /\ Exists (fun item => Item.font_size item = 16%Q) Sample.five_sizes_doc
  /\ Exists (fun item => Item.font_size item = 14%Q) Sample.five_sizes_doc.
Proof.
  exact (thresholds_are_sizes_of_records Sample.five_sizes_doc
           {| th_title := 24; th_h1 := 20; th_h2 := 16; th_h3 := 14 |} eq_refl).
Defined.

(** X11: the threshold estimator raises exactly on the empty list, and
    the exception is the ValueError of [max] on an empty sequence. *)
Theorem determine_font_thresholds_raises_on_empty (doc : list Item.t) :
  match determine_font_thresholds doc with
  | Ok _ => doc <> []
  | Raise e => doc = [] /\ e = ValueError
  end.
Proof.
  destruct doc as [|item doc]; [done|].
  by destruct (determine_font_thresholds_ok (item :: doc)) as [th ->].
Qed.

(** ** Lines in the largest font *)

Lemma classify_level self th text size page l :
  font_thresholds self = Some th ->
  classify_heading_level self text size page = Ok (Some l) ->
  level_by_font_size th size page = Some l
  \/ level_by_font_size th size page = None.
Proof.
  intros Hth. unfold classify_heading_level.
  destruct (gate_rejects self (Str.strip text)) as [[|]|]; cbn; try done.
  rewrite Hth. destruct (level_by_font_size th size page); [|by right].
  intros [= ->]. by left.
Qed.

(** X12: an outline entry built from a record in the largest font of
    the document is never on page 1 and always has level H1 (on page 1
    such a line is classified title and left out). *)
Theorem largest_font_lines (self : extractor) (doc : list Item.t) :
  Forall has_text doc ->
  exists r,
    fst (extract_outline self doc) = Ok r
    /\ forall e, e ∈ outline r ->
         exists item,
           item ∈ doc
           /\ emits (snd (extract_outline self doc)) item e
           /\ ((forall item', item' ∈ doc ->
                  (Item.font_size item' <= Item.font_size item)%Q) ->
               Entry.page e <> 1 /\ Entry.level e = H1).
Proof.
  intros Hdoc.
  destruct (extract_outline_run self doc Hdoc)
    as (r & acc & seen & Hr & Ho & [_ _ Hfirst _ _] & _).
  cbn [fst snd] in Hfirst. exists r. split; [done|]. rewrite Ho.
  intros e He. rewrite stable_sort_perm in He.
  destruct (Hfirst e He) as (pre & item & post & Hdoc' & Hemit & _).
  assert (item ∈ doc) as Hitem.
  { rewrite Hdoc'. apply elem_of_app; right. apply elem_of_cons; by left. }
  exists item. split; [done|]. split; [done|]. intros Hmax.
  assert (doc <> []) as Hne by (intros ->; by apply elem_of_nil in Hitem).
  destruct (determine_font_thresholds_ok doc Hne) as [th Hth].
  rewrite (extract_outline_state self doc th Hne Hth) in Hemit.
  destruct Hemit as (Hc & Hl & _ & Hp & _).
  destruct (thresholds_in_unique_sizes doc th Hth) as (H0 & H1 & _).
  apply unique_sizes_from_doc in H0 as (i0 & Hi0 & E0).
  apply unique_sizes_from_doc in H1 as (i1 & Hi1 & E1).
  assert (Qle_bool (th_title th) (Item.font_size item) = true) as Ht.
  { apply Qle_bool_iff. rewrite <- E0. by apply Hmax. }
  assert (Qle_bool (th_h1 th) (Item.font_size item) = true) as Hh.
  { apply Qle_bool_iff. rewrite <- E1. by apply Hmax. }
  apply (classify_level _ th) in Hc; [|done].
  unfold level_by_font_size in Hc. rewrite Ht, Hh in Hc. cbn [andb] in Hc.
  rewrite Hp. destruct (Item.page item =? 1) eqn:Hpage.
  - destruct Hc as [Hc|Hc]; [|done]. congruence.
  - apply Z.eqb_neq in Hpage. split; [done|].
    destruct Hc as [Hc|Hc]; [|done]. congruence.
Qed.

Lemma largest_font_lines_witness :
  exists r,
    fst (extract_outline init Sample.running_header_doc) = Ok r
    /\ forall e, e ∈ outline r ->
         exists item,
           item ∈ Sample.running_header_doc
           /\ emits (snd (extract_outline init Sample.running_header_doc)) item e
           /\ ((forall item', item' ∈ Sample.running_header_doc ->
                  (Item.font_size item' <= Item.font_size item)%Q) ->
               Entry.page e <> 1 /\ Entry.level e = H1).
Proof.
  apply (largest_font_lines init Sample.running_header_doc).
  repeat constructor; by vm_compute.
Defined.

(** ** The classifier before the thresholds are set *)

Lemma gate_rejects_raises self text e :
  gate_rejects self text = Raise e -> text = "" /\ e = IndexError.
Proof.
  unfold gate_rejects. destruct (negb (is_heading_by_pattern self text)); [|done].
  destruct text; cbn; [by intros [= <-]|done].
Qed.

(** X13: on an extractor whose thresholds have not been set the
    classifier never returns a level: it returns none for a line that the
    opening check rejects, raises IndexError on a blank text, and raises
    KeyError on every other line. *)
Theorem classify_without_thresholds
    (self : extractor) (text : string) (font_size : Q) (page : Z) :
  font_thresholds self = None ->
  match classify_heading_level self text font_size page with
  | Ok None => gate_rejects self (Str.strip text) = Ok true
  | Ok (Some _) => False
  | Raise KeyError => gate_rejects self (Str.strip text) = Ok false
  | Raise IndexError => Str.strip text = ""
  | Raise ValueError => False
  end.
Proof.
  intros Hth. unfold classify_heading_level.
  destruct (gate_rejects self (Str.strip text)) as [[|]|e] eqn:Hg; cbn;
    rewrite ?Hth; try done.
  by apply gate_rejects_raises in Hg as [-> ->].
Qed.

Lemma classify_without_thresholds_witness :
  gate_rejects init (Str.strip "1.1 Background") = Ok false.
Proof.
  exact (classify_without_thresholds init "1.1 Background" 14 1 eq_refl).
Defined.

(** X14: the pattern gate and the classifier ignore leading and trailing
    whitespace of the text. *)
Theorem surrounding_whitespace_is_ignored
    (self : extractor) (text : string) (font_size : Q) (page : Z) :
  is_heading_by_pattern self (Str.strip text) = is_heading_by_pattern self text
  /\ classify_heading_level self (Str.strip text) font_size page
     = classify_heading_level self text font_size page.
Proof.
  unfold classify_heading_level, is_heading_by_pattern.
  by rewrite !strip_idem.
Qed.

(** ** The pipeline on an extracted document *)

Section PdfPipeline.
Variable average : list Q -> Q.

Lemma extracted_has_text doc :
  Forall has_text (extract_text_with_formatting average doc).
Proof.
  apply Forall_forall. intros item Hitem.
  apply scan_pages_records in Hitem as (Hs & Hn & _).
  unfold has_text. by rewrite Hs.
Qed.

(** X15: on the records extracted from any document the pipeline
    returns a result (the IndexError of a blank text cannot occur), the
    outline is in document order, and [process_single_pdf] writes that
    result, not the error record. *)
Theorem pdf_pipeline_never_raises (doc : Pdf.document) :
  exists r,
    fst (extract_outline_of_pdf average init doc) = Ok r
    /\ in_encounter_order (snd (extract_outline_of_pdf average init doc))
         (extract_text_with_formatting average doc) (outline r)
    /\ process_single_pdf (Ok (extract_text_with_formatting average doc)) = r.
Proof.
  unfold extract_outline_of_pdf.
  destruct (extract_outline_page_ordered init
              (extract_text_with_formatting average doc))
    as (r & Hr & Horder);
    [apply extracted_has_text|apply scan_pages_ordered|].
  exists r. split; [done|]. split; [done|].
  unfold process_single_pdf. by rewrite Hr.
Qed.

End PdfPipeline.

(** ** The thresholds depend on the set of sizes only *)

Lemma counter_keys_from_fresh seen l k :
  k ∈ counter_keys_from seen l -> forall s, s ∈ seen -> ~ (k == s)%Q.
Proof.
  revert seen. induction l as [|x l IH]; intros seen; cbn [counter_keys_from].
  - by intros ?%elem_of_nil.
  - destruct (existsb (Qeq_bool x) seen) eqn:E.
    + apply IH.
    + intros [->|Hk]%elem_of_cons s Hs.
      * intros Hq. apply Qeq_bool_iff in Hq.
        assert (existsb (Qeq_bool x) seen = true) as E'; [|congruence].
        apply existsb_exists. exists s. split; [by apply list_elem_of_In|done].
      * apply (IH _ Hk). apply elem_of_cons; by right.
Qed.

Lemma counter_keys_from_distinct seen l :
  StronglySorted (fun x y => ~ (y == x)%Q) (counter_keys_from seen l).
Proof.
  revert seen. induction l as [|x l IH]; intros seen; cbn [counter_keys_from].
  - constructor.
  - destruct (existsb (Qeq_bool x) seen); [apply IH|].
    constructor; [apply IH|]. apply Forall_forall. intros k Hk.
    apply (counter_keys_from_fresh _ _ _ Hk). apply elem_of_cons; by left.
Qed.

Lemma insert_sorted_strict x l :
  StronglySorted (fun a b => (b < a)%Q) l ->
  (forall y, y ∈ l -> ~ (y == x)%Q) ->
  StronglySorted (fun a b => (b < a)%Q) (insert_sorted larger_first x l).
Proof.
  induction 1 as [|y l Hl IH Hy]; intros Hx; cbn [insert_sorted].
  - repeat constructor.
  - assert (~ (y == x)%Q) as Hyx by (apply Hx, elem_of_cons; by left).
    unfold larger_first at 1. destruct (Qlt_bool x y) eqn:E.
    + apply Qlt_bool_true in E. constructor.
      * apply IH. intros z Hz. apply Hx, elem_of_cons. by right.
      * apply Forall_forall. intros z Hz.
        rewrite insert_sorted_perm in Hz.
        apply elem_of_cons in Hz as [->|Hz]; [done|].
        rewrite Forall_forall in Hy. by apply Hy.
    + apply Qlt_bool_false in E.
      assert (y < x)%Q as Hlt.
      { apply Qle_lt_or_eq in E as [E|E]; [done|by destruct Hyx]. }
      constructor; [by constructor|].
      apply Forall_forall. intros z Hz.
      apply elem_of_cons in Hz as [->|Hz]; [done|].
      rewrite Forall_forall in Hy. apply Qlt_trans with y; [by apply Hy|done].
Qed.

Lemma stable_sort_strict l :
  StronglySorted (fun x y => ~ (y == x)%Q) l ->
  StronglySorted (fun a b => (b < a)%Q) (stable_sort larger_first l).
Proof.
  induction 1 as [|x l Hl IH Hx]; cbn [stable_sort]; [constructor|].
  apply insert_sorted_strict; [done|].
  intros y Hy. rewrite stable_sort_perm in Hy.
  rewrite Forall_forall in Hx. by apply Hx.
Qed.

Lemma unique_sizes_strict doc :
  StronglySorted (fun a b => (b < a)%Q) (unique_sizes doc).
Proof. apply stable_sort_strict, counter_keys_from_distinct. Qed.

Lemma strict_desc_unique (l1 : list Q) : forall l2,
  StronglySorted (fun a b => (b < a)%Q) l1 ->
  StronglySorted (fun a b => (b < a)%Q) l2 ->
  (forall x, x ∈ l1 -> exists y, y ∈ l2 /\ (x == y)%Q) ->
  (forall y, y ∈ l2 -> exists x, x ∈ l1 /\ (y == x)%Q) ->
  Forall2 Qeq l1 l2.
Proof.
  induction l1 as [|a l1 IH]; intros l2 H1 H2 H12 H21.
  - destruct l2 as [|b l2]; [constructor|].
    destruct (H21 b) as (x & Hx & _); [apply elem_of_cons; by left|].
    by apply elem_of_nil in Hx.
  - destruct l2 as [|b l2].
    { destruct (H12 a) as (y & Hy & _); [apply elem_of_cons; by left|].
      by apply elem_of_nil in Hy. }
    inversion_clear H1 as [|? ? H1' Ha]. inversion_clear H2 as [|? ? H2' Hb].
    rewrite Forall_forall in Ha, Hb.
    assert (a == b)%Q as Hab.
    { destruct (H12 a) as (y & Hy & Hay); [apply elem_of_cons; by left|].
      destruct (H21 b) as (x & Hx & Hbx); [apply elem_of_cons; by left|].
      apply Qle_antisym.
      - rewrite Hay. apply elem_of_cons in Hy as [->|Hy]; [apply Qle_refl|].
        apply Qlt_le_weak. by apply Hb.
      - rewrite Hbx. apply elem_of_cons in Hx as [->|Hx]; [apply Qle_refl|].
        apply Qlt_le_weak. by apply Ha. }
    constructor; [done|]. apply IH; [done..| |].
    + intros x Hx. destruct (H12 x) as (y & Hy & Hxy);
        [apply elem_of_cons; by right|].
      exists y. split; [|done].
      apply elem_of_cons in Hy as [->|Hy]; [|done].
      exfalso. specialize (Ha x Hx). rewrite Hxy, <- Hab in Ha.
      by apply Qlt_irrefl in Ha.
    + intros y Hy. destruct (H21 y) as (x & Hx & Hyx);
        [apply elem_of_cons; by right|].
      exists x. split; [|done].
      apply elem_of_cons in Hx as [->|Hx]; [|done].
      exfalso. specialize (Hb y Hy). rewrite Hyx, Hab in Hb.
      by apply Qlt_irrefl in Hb.
Qed.

Lemma same_sizes_unique_sizes doc1 doc2 :
  same_sizes doc1 doc2 -> Forall2 Qeq (unique_sizes doc1) (unique_sizes doc2).
Proof.
  intros [H12 H21].
  apply strict_desc_unique; try apply unique_sizes_strict.
  - intros x Hx. apply unique_sizes_from_doc in Hx as (item & Hitem & <-).
    destruct (H12 item Hitem) as (item' & Hitem' & Hq).
    destruct (unique_sizes_covers doc2 item' Hitem') as (k & Hk & Hq').
    exists k. split; [done|]. by rewrite Hq.
  - intros x Hx. apply unique_sizes_from_doc in Hx as (item & Hitem & <-).
    destruct (H21 item Hitem) as (item' & Hitem' & Hq).
    destruct (unique_sizes_covers doc1 item' Hitem') as (k & Hk & Hq').
    exists k. split; [done|]. by rewrite Hq.
Qed.

(** X16: the thresholds depend on the set of font sizes only: two
    documents that use the same sizes, in any order and any number of
    times, get the same four thresholds. *)
Theorem thresholds_depend_on_sizes_only
    (doc1 doc2 : list Item.t) (th1 th2 : FontThresholds) :
  same_sizes doc1 doc2 ->
  determine_font_thresholds doc1 = Ok th1 ->
  determine_font_thresholds doc2 = Ok th2 ->
  (th_title th1 == th_title th2)%Q /\ (th_h1 th1 == th_h1 th2)%Q
  /\ (th_h2 th1 == th_h2 th2)%Q /\ (th_h3 th1 == th_h3 th2)%Q.
Proof.
  intros Hsame H1 H2.
  apply determine_font_thresholds_cases in H1, H2.
  pose proof (same_sizes_unique_sizes doc1 doc2 Hsame) as Hall.
  destruct Hall as [|a a' l l' Ha Hall]; [done|].
  destruct Hall as [|b b' l l' Hb Hall]; [by subst|].
  destruct Hall as [|c c' l l' Hc Hall]; [by subst|].
  destruct Hall as [|d d' l l' Hd Hall]; by subst.
Qed.

Lemma same_sizes_samples : same_sizes Sample.intro_doc reordered_sizes_doc.
Proof.
  split; intros item Hitem;
    unfold Sample.intro_doc, reordered_sizes_doc in *;
    repeat (apply elem_of_cons in Hitem as [->|Hitem]);
    try (by apply elem_of_nil in Hitem).
  - exists (Sample.line "y" (36 # 2) 3). split; [|reflexivity].
    apply elem_of_cons; right. apply elem_of_cons; by left.
  - exists (Sample.line "z" 14 9). split; [|reflexivity].
    apply elem_of_cons; by left.
  - exists (Sample.line "z" 14 9). split; [|reflexivity].
    apply elem_of_cons; by left.
  - exists (Sample.line "1.1 Background" 14 1). split; [|reflexivity].
    apply elem_of_cons; right. apply elem_of_cons; by left.
  - exists (Sample.line "1. Introduction" 18 1). split; [|reflexivity].
    apply elem_of_cons; by left.
Defined.

Lemma thresholds_depend_on_sizes_only_witness :
  same_sizes Sample.intro_doc reordered_sizes_doc
  /\ determine_font_thresholds reordered_sizes_doc
     = Ok {| th_title := 36 # 2; th_h1 := 14; th_h2 := 14; th_h3 := 14 |}
  /\ (18 == 36 # 2)%Q /\ (14 == 14)%Q /\ (14 == 14)%Q /\ (14 == 14)%Q.
Proof.
  split; [exact same_sizes_samples|]. split; [reflexivity|].
  exact (thresholds_depend_on_sizes_only Sample.intro_doc reordered_sizes_doc
           {| th_title := 18; th_h1 := 14; th_h2 := 14; th_h3 := 14 |}
           {| th_title := 36 # 2; th_h1 := 14; th_h2 := 14; th_h3 := 14 |}
           same_sizes_samples eq_refl eq_refl).
Defined.

(** ** The font-size rules, once more *)

Lemma thresholds_sorted doc th :
  determine_font_thresholds doc = Ok th ->
  (th_h1 th <= th_title th)%Q /\ (th_h2 th <= th_h1 th)%Q
  /\ (th_h3 th <= th_h2 th)%Q.
Proof.
  intros Hth. apply determine_font_thresholds_cases in Hth.
  pose proof (unique_sizes_Sorted doc) as Hs.
  destruct (unique_sizes doc) as [|a [|b [|c [|d l]]]]; [done|subst th; cbn..];
    repeat match goal with
           | H : Sorted _ (_ :: _) |- _ => inversion_clear H
           | H : HdRel _ _ (_ :: _) |- _ => inversion_clear H
           end;
    repeat split; try done; apply Qle_refl.
Qed.

Ltac split_size_tests :=
  repeat match goal with
         | |- context [Qle_bool ?a ?b] =>
             let E := fresh "E" in
             destruct (Qle_bool a b) eqn:E;
             [apply Qle_bool_iff in E
             |apply not_true_iff_false in E; rewrite Qle_bool_iff in E]
         end.

(** X17: with the thresholds of a document, the font-size rules are
    monotone: on the same page a larger font size never gets a deeper
    level (title, H1, H2, H3, no level, in this order). *)
Theorem font_rules_monotone
    (doc : list Item.t) (th : FontThresholds) (page : Z) (size1 size2 : Q) :
  determine_font_thresholds doc = Ok th ->
  (size1 <= size2)%Q ->
  (level_rank (level_by_font_size th size2 page)
   <= level_rank (level_by_font_size th size1 page))%nat.
Proof.
  intros Hth Hle.
  destruct (thresholds_sorted doc th Hth) as (H1 & H2 & H3).
  unfold level_by_font_size. split_size_tests;
    destruct (page =? 1); cbn; try lia; exfalso; lra.
Qed.

Lemma font_rules_monotone_witness :
  (level_rank (level_by_font_size
                 {| th_title := 24; th_h1 := 20; th_h2 := 16; th_h3 := 14 |}
                 20 2)
   <= level_rank (level_by_font_size
                    {| th_title := 24; th_h1 := 20; th_h2 := 16; th_h3 := 14 |}
                    15 2))%nat.
Proof.
  apply (font_rules_monotone Sample.five_sizes_doc
           {| th_title := 24; th_h1 := 20; th_h2 := 16; th_h3 := 14 |} 2 15 20
           eq_refl).
  discriminate.
Defined.

Lemma level_by_pattern_not_title text : level_by_pattern text <> Some Title.
Proof.
  unfold level_by_pattern.
  repeat match goal with |- context [if ?b then _ else _] => destruct b end;
    discriminate.
Qed.

(** X18: with the thresholds of the document in place, the classifier
    answers title for a record of the document exactly when the opening
    check does not reject it, it is on page 1, and no record of the
    document has a larger font size. *)
Theorem title_level_characterised
    (self : extractor) (doc : list Item.t) (th : FontThresholds) (item : Item.t) :
  item ∈ doc ->
  determine_font_thresholds doc = Ok th ->
  font_thresholds self = Some th ->
  classify_heading_level self (Item.text item) (Item.font_size item)
    (Item.page item) = Ok (Some Title)
  <-> gate_rejects self (Str.strip (Item.text item)) = Ok false
      /\ Item.page item = 1
      /\ forall item', item' ∈ doc ->
           (Item.font_size item' <= Item.font_size item)%Q.
Proof.
  intros Hitem Hth Hself.
  pose proof (title_threshold_is_largest doc th) as Hmax.
  destruct (thresholds_in_unique_sizes doc th Hth) as (H0 & _).
  apply unique_sizes_from_doc in H0 as (top & Htop & Etop).
  unfold classify_heading_level.
  destruct (gate_rejects self (Str.strip (Item.text item))) as [[|]|e];
    cbn; [split; [done|by intros [? _]]| |split; [done|by intros [? _]]].
  rewrite Hself. unfold level_by_font_size.
  destruct (Qle_bool (th_title th) (Item.font_size item)) eqn:Et.
  - apply Qle_bool_iff in Et. destruct (Item.page item =? 1) eqn:Ep; cbn [andb].
    + apply Z.eqb_eq in Ep. split; [|done]. intros _.
      split; [done|]. split; [done|]. intros item' Hitem'.
      apply Qle_trans with (th_title th); [by apply Hmax|done].
    + apply Z.eqb_neq in Ep. split; [|by intros (_ & ? & _)].
      repeat match goal with |- context [if ?b then _ else _] => destruct b end;
        try discriminate.
      intros [= H]. by destruct (level_by_pattern_not_title _ H).
  - cbn [andb]. split.
    + repeat match goal with |- context [if ?b then _ else _] => destruct b end;
        try discriminate.
      intros [= H]. by destruct (level_by_pattern_not_title _ H).
    + intros (_ & _ & Hall). exfalso.
      apply not_true_iff_false in Et. apply Et, Qle_bool_iff.
      rewrite <- Etop. by apply Hall.
Qed.

Lemma title_level_characterised_witness :
  classify_heading_level (snd (extract_outline init Sample.intro_doc))
    "1. Introduction" 18 1 = Ok (Some Title)
  <-> gate_rejects (snd (extract_outline init Sample.intro_doc))
        (Str.strip "1. Introduction") = Ok false
      /\ 1 = 1
      /\ forall item', item' ∈ Sample.intro_doc ->
           (Item.font_size item' <= 18)%Q.
Proof.
  apply (title_level_characterised
           (snd (extract_outline init Sample.intro_doc)) Sample.intro_doc
           {| th_title := 18; th_h1 := 14; th_h2 := 14; th_h3 := 14 |}
           (Sample.line "1. Introduction" 18 1)).
  - apply elem_of_cons; by left.
  - reflexivity.
  - reflexivity.
Defined.

(** * The order of the outline and the length limits *)

(** ** Where the entries come from *)

Lemma source_at_snoc self processed item i e :
  source_at self processed i e -> source_at self (processed ++ [item]) i e.
Proof.
  intros (it & Hi & Hemit & Hfirst).
  pose proof (lookup_lt_Some _ _ _ Hi) as Hlt.
  exists it. split; [by rewrite lookup_app_l|]. split; [done|].
  intros k item' e' Hk Hk'. rewrite lookup_app_l in Hk' by lia. by eapply Hfirst.
Qed.

Lemma visit_positions self processed acc item acc' indices :
  loop_inv self processed acc ->
  StronglySorted lt indices ->
  Forall (fun i => (i < length processed)%nat) indices ->
  Forall2 (source_at self processed) indices acc.1 ->
  visit self acc item = Ok acc' ->
  exists indices',
    StronglySorted lt indices'
    /\ Forall (fun i => (i < length (processed ++ [item]))%nat) indices'
    /\ Forall2 (source_at self (processed ++ [item])) indices' acc'.1.
Proof.
  intros [Hseen _ _ Hknown _] Hsorted Hbound Hsrc Hvisit.
  assert (Forall2 (source_at self (processed ++ [item])) indices acc.1) as Hsrc'.
  { eapply Forall2_impl; [exact Hsrc|]. intros i e. apply source_at_snoc. }
  assert (Forall (fun i => (i < length (processed ++ [item]))%nat) indices)
    as Hbound'.
  { eapply Forall_impl; [exact Hbound|]. intros i Hi. cbn beta in Hi |- *.
    rewrite length_app. lia. }
  apply visit_cases in Hvisit as [[-> _]|(e & He & Hfresh & ->)].
  - by exists indices.
  - exists (indices ++ [length processed]). cbn [fst]. split; [|split].
    + clear Hsrc Hsrc' Hbound'.
      induction Hsorted as [|i l Hl IH Hi]; [repeat constructor|].
      inversion_clear Hbound as [|? ? Hib Hlb]. cbn. constructor; [by apply IH|].
      apply Forall_app. split; [done|]. by repeat constructor.
    + apply Forall_app. split; [done|]. repeat constructor.
      rewrite length_app. cbn. lia.
    + apply Forall2_app; [done|]. constructor; [|constructor].
      exists item. split; [by rewrite lookup_app_r, Nat.sub_diag by lia|].
      split; [done|]. intros k item' e' Hk Hk' He' Heq.
      rewrite lookup_app_l in Hk' by done.
      apply Hfresh. rewrite <- Heq. eapply Hknown; [|done].
      by eapply list_elem_of_lookup_2.
Qed.

Lemma collect_headings_positions self rest :
  forall processed acc acc' indices,
    loop_inv self processed acc ->
    StronglySorted lt indices ->
    Forall (fun i => (i < length processed)%nat) indices ->
    Forall2 (source_at self processed) indices acc.1 ->
    collect_headings self rest acc = Ok acc' ->
    in_first_encounter_order self (processed ++ rest) acc'.1.
Proof.
  induction rest as [|item rest IH];
    intros processed acc acc' indices Hinv Hs Hb Hsrc Hrun.
  - cbn in Hrun. injection Hrun as <-. rewrite app_nil_r. by exists indices.
  - cbn [collect_headings] in Hrun.
    destruct (visit self acc item) as [acc1|] eqn:Hvisit; [|done].
    cbn in Hrun.
    destruct (visit_positions _ _ _ _ _ _ Hinv Hs Hb Hsrc Hvisit)
      as (indices' & Hs' & Hb' & Hsrc').
    replace (processed ++ item :: rest)
      with ((processed ++ [item]) ++ rest) by (by rewrite <- app_assoc).
    eapply IH; [by eapply visit_inv|done..].
Qed.

(** A run on well-formed records, with the list that the loop has
    accumulated when the sort begins. *)
Lemma extract_outline_loop self doc :
  Forall has_text doc ->
  exists r acc seen,
    fst (extract_outline self doc) = Ok r
    /\ collect_headings (snd (extract_outline self doc)) doc ([], ∅)
       = Ok (acc, seen)
    /\ outline r = stable_sort by_page acc.
Proof.
  intros Hdoc. destruct doc as [|item doc].
  { by exists {| title := "Empty Document"; outline := [] |}, [], ∅. }
  unfold extract_outline. cbn [is_nil].
  destruct (determine_font_thresholds_ok (item :: doc)) as [th ->]; [done|].
  cbn [fst snd].
  destruct (extract_title_source (item :: doc)) as (t & -> & _).
  set (self' := {| heading_patterns := heading_patterns self;
                   font_thresholds := Some th |}).
  destruct (collect_headings_ok self' th (item :: doc) ([], ∅))
    as [[acc seen] Hrun]; [done..|].
  rewrite Hrun. cbn.
  by exists {| title := t; outline := stable_sort by_page acc |}, acc, seen.
Qed.

Lemma accumulated_in_first_encounter_order self doc acc seen :
  collect_headings self doc ([], ∅) = Ok (acc, seen) ->
  in_first_encounter_order self doc acc.
Proof.
  intros Hrun.
  apply (collect_headings_positions self doc [] ([], ∅) (acc, seen) []);
    [apply loop_inv_init|constructor|constructor|constructor|done].
Qed.

(** ** The order of the outline *)

(** C6: the outline is sorted by page number, ascending, and it is a
    stable rearrangement of the list that the loop has accumulated: a
    permutation of it in which, for every page, the entries of that page
    are in the order of the accumulated list.  The accumulated list has
    the entries in document-encounter order: each entry is built from the
    first qualifying record with its text, and the positions of these
    records in the document increase along the list. *)
Theorem outline_sorted_by_page (self : extractor) (doc : list Item.t) :
  Forall has_text doc ->
  let self' := snd (extract_outline self doc) in
  exists r acc seen,
    fst (extract_outline self doc) = Ok r
    /\ collect_headings self' doc ([], ∅) = Ok (acc, seen)
    /\ in_first_encounter_order self' doc acc
    /\ in_encounter_order self' doc acc
    /\ outline r ≡ₚ acc
    /\ Sorted (fun x y => Entry.page x <= Entry.page y) (outline r)
    /\ forall p, List.filter (fun e => Entry.page e =? p) (outline r)
                 = List.filter (fun e => Entry.page e =? p) acc.
Proof.
  intros Hdoc self'.
  destruct (extract_outline_loop self doc Hdoc) as (r & acc & seen & Hr & Hrun & Ho).
  fold self' in Hrun. exists r, acc, seen. rewrite Ho.
  split; [done|]. split; [done|].
  split; [by eapply accumulated_in_first_encounter_order|].
  split.
  { pose proof (collect_headings_inv self' doc [] ([], ∅) (acc, seen)
                  (loop_inv_init self') Hrun) as [_ _ _ _ Horder].
    exact Horder. }
  split; [apply stable_sort_perm|]. split.
  - apply Sorted_weaken with (R := in_order by_page);
      [|apply stable_sort_Sorted, by_page_asym].
    intros x y. unfold in_order, by_page. rewrite Z.ltb_ge. lia.
  - intros p. apply (stable_sort_same_key Entry.page).
Qed.

Lemma has_text_shuffled : Forall has_text SampleOrder.shuffled_doc.
Proof. repeat constructor; by vm_compute. Defined.

Lemma outline_sorted_by_page_witness :
  exists r acc seen,
    fst (extract_outline init SampleOrder.shuffled_doc) = Ok r
    /\ collect_headings (snd (extract_outline init SampleOrder.shuffled_doc))
         SampleOrder.shuffled_doc ([], ∅) = Ok (acc, seen)
    /\ in_first_encounter_order
         (snd (extract_outline init SampleOrder.shuffled_doc))
         SampleOrder.shuffled_doc acc
    /\ in_encounter_order (snd (extract_outline init SampleOrder.shuffled_doc))
         SampleOrder.shuffled_doc acc
    /\ outline r ≡ₚ acc
    /\ Sorted (fun x y => Entry.page x <= Entry.page y) (outline r)
    /\ forall p, List.filter (fun e => Entry.page e =? p) (outline r)
                 = List.filter (fun e => Entry.page e =? p) acc.
Proof.
  exact (outline_sorted_by_page init SampleOrder.shuffled_doc has_text_shuffled).
Defined.

(** On that document the loop accumulates Beta, Alpha, Gamma, Delta, and
    the sort moves the entries of page 2 in front without exchanging Beta
    and Gamma, or Alpha and Delta. *)
Example shuffled_doc_run :
  (exists seen,
     collect_headings (snd (extract_outline init SampleOrder.shuffled_doc))
       SampleOrder.shuffled_doc ([], ∅)
     = Ok ([ Entry.mk H1 "Beta" 3; Entry.mk H1 "Alpha" 2;
             Entry.mk H1 "Gamma" 3; Entry.mk H1 "Delta" 2 ], seen))
  /\ fst (extract_outline init SampleOrder.shuffled_doc)
     = Ok {| title := "Report";
             outline := [ Entry.mk H1 "Alpha" 2; Entry.mk H1 "Delta" 2;
                          Entry.mk H1 "Beta" 3; Entry.mk H1 "Gamma" 3 ] |}.
Proof. split; [eexists|]; vm_compute; reflexivity. Qed.

(** X4: when the line records are in page order (as the extractor
    returns them) the final sort changes nothing: the outline is the list
    that the loop has accumulated, with each entry at the place of the
    first qualifying record with its text. *)
Theorem page_ordered_records_keep_their_order
    (self : extractor) (doc : list Item.t) :
  Forall has_text doc -> page_ordered doc ->
  let self' := snd (extract_outline self doc) in
  exists r acc seen,
    fst (extract_outline self doc) = Ok r
    /\ collect_headings self' doc ([], ∅) = Ok (acc, seen)
    /\ outline r = acc
    /\ in_first_encounter_order self' doc (outline r).
Proof.
  intros Hdoc Hpages self'.
  destruct (extract_outline_loop self doc Hdoc) as (r & acc & seen & Hr & Hrun & Ho).
  fold self' in Hrun. exists r, acc, seen.
  assert (outline r = acc) as Hsame.
  { rewrite Ho. apply stable_sort_sorted_id.
    pose proof (collect_headings_inv self' doc [] ([], ∅) (acc, seen)
                  (loop_inv_init self') Hrun) as [_ _ _ _ (sub & Hsub & Hemit)].
    eapply emitted_pages_ordered; [exact Hemit|].
    by eapply StronglySorted_sub. }
  split; [done|]. split; [done|]. split; [done|].
  rewrite Hsame. by eapply accumulated_in_first_encounter_order.
Qed.

Lemma has_text_repeated : Forall has_text SampleOrder.repeated_doc.
Proof. repeat constructor; by vm_compute. Defined.

Lemma page_ordered_repeated : page_ordered SampleOrder.repeated_doc.
Proof. repeat constructor; cbn; lia. Defined.

Lemma page_ordered_records_keep_their_order_witness :
  exists r acc seen,
    fst (extract_outline init SampleOrder.repeated_doc) = Ok r
    /\ collect_headings (snd (extract_outline init SampleOrder.repeated_doc))
         SampleOrder.repeated_doc ([], ∅) = Ok (acc, seen)
    /\ outline r = acc
    /\ in_first_encounter_order
         (snd (extract_outline init SampleOrder.repeated_doc))
         SampleOrder.repeated_doc (outline r).
Proof.
  exact (page_ordered_records_keep_their_order init SampleOrder.repeated_doc
           has_text_repeated page_ordered_repeated).
Defined.

(** On [SampleOrder.repeated_doc] the outline is "Alpha Beta", "Gamma";
    the other order is not a first-encounter order, although "Gamma" and
    the second "Alpha Beta" follow each other in the document. *)
Example repeated_doc_order :
  fst (extract_outline init SampleOrder.repeated_doc)
  = Ok {| title := "Report";
          outline := [ Entry.mk H1 "Alpha Beta" 2; Entry.mk H1 "Gamma" 2 ] |}
  /\ ~ in_first_encounter_order
         (snd (extract_outline init SampleOrder.repeated_doc))
         SampleOrder.repeated_doc
         [ Entry.mk H1 "Gamma" 2; Entry.mk H1 "Alpha Beta" 2 ].
Proof.
  split; [vm_compute; reflexivity|].
  intros (indices & Hsorted & Hsrc).
  inversion Hsrc as [|i e ind l Hi Hrest]; subst; clear Hsrc.
  inversion Hrest as [|j e' ind' l' Hj Hrest']; subst; clear Hrest.
  inversion Hrest'; subst; clear Hrest'.
  inversion_clear Hsorted as [|? ? _ Hij]. inversion_clear Hij as [|? ? Hij' _].
  destruct Hi as (item & Hi & (_ & _ & Ht & _) & _).
  destruct Hj as (item' & Hj & _ & Hfirst).
  cbn [Entry.text] in Ht.
  assert (i = 2%nat) as ->.
  { destruct i as [|[|[|[|i]]]]; cbn in Hi; try discriminate;
      injection Hi as <-; vm_compute in Ht; congruence. }
  destruct j as [|[|[|[|j]]]]; cbn in Hj; try discriminate; try lia.
  apply (Hfirst 1%nat (Sample.line "Alpha Beta" 14 2)
           (Entry.mk H1 "Alpha Beta" 2)); [lia|reflexivity| |reflexivity].
  repeat split; try (vm_compute; reflexivity); try discriminate.
Qed.

(** ** The length limits, in full *)

Lemma classify_passes_gate self text size page l :
  classify_heading_level self text size page = Ok (Some l) ->
  gate_rejects self (Str.strip text) = Ok false.
Proof.
  unfold classify_heading_level.
  by destruct (gate_rejects self (Str.strip text)) as [[|]|].
Qed.

Lemma long_line_passes_by_fallback self text :
  gate_rejects self (Str.strip text) = Ok false ->
  200 < Str.len (Str.strip text) ->
  is_heading_by_pattern self (Str.strip text) = false
  /\ exists c s,
       Str.strip text = String c s
       /\ Char.is_upper c = true
       /\ (length (Str.split (Str.strip text)) <= 10)%nat.
Proof.
  intros Hgate Hlong.
  assert (is_heading_by_pattern self (Str.strip text) = false) as Hpat.
  { unfold is_heading_by_pattern. rewrite strip_idem.
    apply Z.ltb_lt in Hlong. rewrite Hlong. by rewrite orb_true_r. }
  split; [done|]. unfold gate_rejects in Hgate. rewrite Hpat in Hgate.
  cbn [negb] in Hgate.
  destruct (Str.strip text) as [|c s]; [done|]. cbn in Hgate.
  exists c, s. split; [done|].
  injection Hgate as Hgate. apply negb_false_iff, andb_prop in Hgate as [Hu Hw].
  split; [done|]. by apply Nat.leb_le.
Qed.

(** C3 (as amended): a line shorter than 3 characters never appears as an
    outline entry (every entry has a text of more than 2 characters and is
    built from a record that qualifies) and is never chosen as the title.
    A line whose stripped text is longer than 200 characters fails the
    pattern gate; the classifier gives it a level, and so lets it into the
    outline, only if it passes the second check of the classifier, that
    is if its first character passes [isupper] and it has at most 10
    words.  The title is "Empty Document" for the
    empty document, "Untitled Document", the cleaned text of a page-1
    record of more than 3 characters (primary scan, the only one that can
    take a line of more than 200 characters) or the stripped text, of more
    than 5 and fewer than 100 characters, of a page-1 record (secondary
    scan). *)
Theorem length_limits (self : extractor) (doc : list Item.t) :
  Forall has_text doc ->
  let self' := snd (extract_outline self doc) in
  exists r,
    fst (extract_outline self doc) = Ok r
    /\ (forall e, e ∈ outline r ->
          2 < Str.len (Entry.text e)
          /\ exists item, item ∈ doc /\ emits self' item e)
    /\ (forall item e, item ∈ doc -> Str.len (Item.text item) < 3 ->
          e ∈ outline r -> Entry.text e <> normalized item)
    /\ (forall text font_size page level,
          classify_heading_level self' text font_size page = Ok (Some level) ->
          200 < Str.len (Str.strip text) ->
          is_heading_by_pattern self' (Str.strip text) = false
          /\ exists c s,
               Str.strip text = String c s
               /\ Char.is_upper c = true
               /\ (length (Str.split (Str.strip text)) <= 10)%nat)
    /\ (doc = [] /\ title r = "Empty Document" \/ title_source doc (title r)).
Proof.
  intros Hdoc self'.
  destruct (extract_outline_run self doc Hdoc)
    as (r & acc & seen & Hr & Ho & [_ _ Hfirst _ _] & Htitle).
  cbn [fst snd] in *. exists r. rewrite Ho.
  assert (forall e, e ∈ stable_sort by_page acc ->
            2 < Str.len (Entry.text e)
            /\ exists item, item ∈ doc /\ emits self' item e) as Hentries.
  { intros e He. rewrite stable_sort_perm in He.
    destruct (Hfirst e He) as (pre & item & post & -> & Hemit & _).
    split; [apply Hemit|]. exists item. split; [|done].
    apply elem_of_app; right. apply elem_of_cons; by left. }
  split; [done|]. split; [done|]. split; [|split; [|done]].
  - intros item e Hitem Hshort He Heq.
    destruct (Hentries e He) as [Hlen _].
    pose proof (normalized_len item). rewrite Heq in Hlen. lia.
  - intros text size page level Hc Hlong.
    apply long_line_passes_by_fallback; [|done].
    by eapply classify_passes_gate.
Qed.

Lemma has_text_lengths : Forall has_text SampleOrder.lengths_doc.
Proof. repeat constructor; by vm_compute. Defined.

Lemma length_limits_witness :
  exists r,
    fst (extract_outline init SampleOrder.lengths_doc) = Ok r
    /\ (forall e, e ∈ outline r ->
          2 < Str.len (Entry.text e)
          /\ exists item,
               item ∈ SampleOrder.lengths_doc
               /\ emits (snd (extract_outline init SampleOrder.lengths_doc))
                    item e)
    /\ (forall item e, item ∈ SampleOrder.lengths_doc ->
          Str.len (Item.text item) < 3 ->
          e ∈ outline r -> Entry.text e <> normalized item)
    /\ (forall text font_size page level,
          classify_heading_level
            (snd (extract_outline init SampleOrder.lengths_doc))
            text font_size page = Ok (Some level) ->
          200 < Str.len (Str.strip text) ->
          is_heading_by_pattern
            (snd (extract_outline init SampleOrder.lengths_doc))
            (Str.strip text) = false
          /\ exists c s,
               Str.strip text = String c s
               /\ Char.is_upper c = true
               /\ (length (Str.split (Str.strip text)) <= 10)%nat)
    /\ (SampleOrder.lengths_doc = [] /\ title r = "Empty Document"
        \/ title_source SampleOrder.lengths_doc (title r)).
Proof.
  exact (length_limits init SampleOrder.lengths_doc has_text_lengths).
Defined.

(** On [SampleOrder.lengths_doc] the line "Ab" passes the opening check
    and is classified H1, but is too short to be entered; the word of 201
    capitals is entered.  A numbered line of 201 characters is rejected,
    the same line one character shorter is a heading. *)
Example lengths_doc_run :
  fst (extract_outline init SampleOrder.lengths_doc)
  = Ok {| title := "Report";
          outline := [ Entry.mk H1 "Scope Notes" 2;
                       Entry.mk H1 (Sample.repeat_A 201) 3 ] |}
  /\ classify_heading_level (snd (extract_outline init SampleOrder.lengths_doc))
       "Ab" 14 2 = Ok (Some H1)
  /\ classify_heading_level (snd (extract_outline init SampleOrder.lengths_doc))
       ("1. " +:+ Sample.repeat_A 198) 14 2 = Ok None
  /\ classify_heading_level (snd (extract_outline init SampleOrder.lengths_doc))
       ("1. " +:+ Sample.repeat_A 197) 14 2 = Ok (Some H1).
Proof. repeat split; vm_compute; reflexivity. Qed.

(** ** Lines of plain text that cannot be headings *)

(** X8: for a line of ASCII text and the heading patterns of [__init__]:
    if the first non-blank character is neither an uppercase letter A-Z
    nor a digit 0-9, the line fails the pattern gate and is classified as
    no heading, whatever its font size and page and whatever thresholds
    are set. *)
Theorem other_first_character_is_rejected
    (self : extractor) (text : string) (font_size : Q) (page : Z)
    (c : ascii) (s : string) :
  ascii_text text ->
  heading_patterns self = heading_patterns init ->
  Str.strip text = String c s ->
  Char.is_upper c = false -> Char.is_digit c = false ->
  is_heading_by_pattern self text = false
  /\ classify_heading_level self text font_size page = Ok None.
Proof.
  intros _ Hp Hs Hu Hd. split.
  - unfold is_heading_by_pattern. rewrite Hs, Hp.
    rewrite patterns_need_upper_or_digit by done. by destruct (_ || _).
  - unfold classify_heading_level. rewrite Hs.
    rewrite gate_rejects_other_first_char; try done.
    rewrite <- Hs. apply strip_idem.
Qed.

Lemma other_first_character_is_rejected_witness :
  is_heading_by_pattern init "  see page 4 " = false
  /\ classify_heading_level init "  see page 4 " 30 1 = Ok None.
Proof.
  apply (other_first_character_is_rejected init "  see page 4 " 30 1
           "s" "ee page 4"); reflexivity.
Defined.

(** X9: for line records of ASCII text and the heading patterns of
    [__init__], the text of every outline entry starts with an uppercase
    letter A-Z or a digit 0-9. *)
Theorem outline_texts_start_upper_or_digit
    (self : extractor) (doc : list Item.t) :
  Forall (fun item => ascii_text (Item.text item)) doc ->
  heading_patterns self = heading_patterns init ->
  Forall has_text doc ->
  exists r,
    fst (extract_outline self doc) = Ok r
    /\ forall e, e ∈ outline r ->
         exists c s, Entry.text e = String c s
                     /\ (Char.is_upper c = true \/ Char.is_digit c = true).
Proof.
  intros _ Hp Hdoc.
  destruct (extract_outline_run self doc Hdoc)
    as (r & acc & seen & Hr & Ho & [_ _ Hfirst _ _] & _).
  cbn [fst snd] in *. exists r. split; [done|]. rewrite Ho.
  intros e He. rewrite stable_sort_perm in He.
  destruct (Hfirst e He) as (pre & item & post & _ & Hemit & _).
  destruct Hemit as (Hc & _ & Ht & _).
  destruct (Str.strip (Item.text item)) as [|c s] eqn:Hs.
  { unfold classify_heading_level in Hc. by rewrite Hs in Hc. }
  assert (Char.is_upper c = true \/ Char.is_digit c = true) as Hcd.
  { destruct (Char.is_upper c) eqn:Hu; [by left|].
    destruct (Char.is_digit c) eqn:Hd; [by right|]. exfalso.
    unfold classify_heading_level in Hc. rewrite Hs in Hc.
    rewrite gate_rejects_other_first_char in Hc; try done.
    - by rewrite extract_outline_patterns.
    - rewrite <- Hs. apply strip_idem. }
  exists c, (Str.collapse_ws s). split; [|done].
  rewrite Ht. unfold normalized. rewrite Hs, collapse_ws_unfold.
  by rewrite (upper_or_digit_not_space c Hcd).
Qed.

Lemma ascii_text_sample_intro :
  Forall (fun item => ascii_text (Item.text item)) Sample.intro_doc.
Proof. repeat constructor. Defined.

Lemma outline_texts_start_upper_or_digit_witness :
  exists r,
    fst (extract_outline init Sample.intro_doc) = Ok r
    /\ forall e, e ∈ outline r ->
         exists c s, Entry.text e = String c s
                     /\ (Char.is_upper c = true \/ Char.is_digit c = true).
Proof.
  exact (outline_texts_start_upper_or_digit init Sample.intro_doc
           ascii_text_sample_intro eq_refl has_text_sample_intro).
Defined.
